(** * Undo/redo history stack and the reversible text editor

    A shallow embedding of

    - [src/lib/hooks/use-undo-redo.tsx]: the two-sided stack of reversible
      actions ([createUndoStack]) and the hook around it ([useUndoStack]);
    - [src/components/editor.tsx]: the text box that records its edits on
      that stack and mirrors them in [localStorage].

    JavaScript objects that the source mutates in place (the stack held in
    [undoStackRef], the refs [isUndoRedoOperation] and [historyRef], the React
    state [text], the browser's [localStorage]) are fields of an explicit
    state that every procedure takes and returns.  A recorded action is a pair
    of closures; a closure is a function on the state it can reach.  Handlers
    run to completion one after the other, and [setText] takes effect before
    the next handler reads [text]. *)

From Stdlib Require Import Ascii String.
From stdpp Require Import base list strings gmap.

Local Open Scope string_scope.

(** Statements of the source run one after the other: [f >> g] runs [f],
    then [g] on the state that [f] left. *)
Definition andThen {R : Type} (f g : R → R) : R → R := λ r, g (f r).
Infix ">>" := andThen (at level 61, left associativity).

(** ** JavaScript arrays used as stacks and queues *)

(** [a.pop()]: the last element and the array without it; [undefined]
    (here [None]) on an empty array, which is left as it is. *)
Definition pop {A : Type} (a : list A) : option A * list A :=
  match last a with
  | Some x => (Some x, removelast a)
  | None => (None, a)
  end.

(** [a.shift()]: the first element and the rest. *)
Definition shift {A : Type} (a : list A) : option A * list A :=
  match a with
  | x :: a' => (Some x, a')
  | [] => (None, [])
  end.

(** [a.unshift(x)] and [a.push(x)]. *)
Definition unshift {A : Type} (x : A) (a : list A) : list A := x :: a.
Definition array_push {A : Type} (x : A) (a : list A) : list A := a ++ [x].

(** [structuredClone] of immutable values (strings, tuples of strings) is the
    value itself. *)
Definition structuredClone {T : Type} (x : T) : T := x.

(** ** The history stack: [createUndoStack] *)

Section UndoStack.

(** The state the recorded procedures act on.  None of the closures the
    editor records touches the stack itself, so the stack is kept apart
    from it. *)
Variable W : Type.

Record UndoAction := mkUndoAction {
  doWithData : W → W;
  undoWithData : W → W
}.

Record UndoStack := mkUndoStack {
  past : list UndoAction;
  future : list UndoAction
}.

(** The stack object together with the state around it. *)
Record Runtime := mkRuntime {
  undoStackRef : UndoStack;
  world : W
}.

Definition createUndoStack : UndoStack := {| past := []; future := [] |}.

(** Runs a procedure on the surrounding state, the stack untouched. *)
Definition inWorld (f : W → W) : Runtime → Runtime :=
  λ r, {| undoStackRef := undoStackRef r; world := f (world r) |}.

(** [push(doFn, undoFn, ...withArgumentsToClone)]: the action closes over
    a clone of the arguments, is executed once, is appended to [past], and
    [future] is truncated. *)
Definition push {T : Type} (doFn undoFn : T → W → W)
    (withArgumentsToClone : T) : Runtime → Runtime :=
  λ r,
    let clonedArgs := structuredClone withArgumentsToClone in
    let action := {| doWithData := doFn clonedArgs;
                     undoWithData := undoFn clonedArgs |} in
    let w := doWithData action (world r) in
    {| undoStackRef :=
         {| past := array_push action (past (undoStackRef r));
            future := [] |};
       world := w |}.

(** [undo()]: [past.pop()]; when there was an action, run its
    [undoWithData] and [future.unshift] it. *)
Definition undo : Runtime → Runtime :=
  λ r,
    match pop (past (undoStackRef r)) with
    | (Some action, past') =>
        let w := undoWithData action (world r) in
        {| undoStackRef :=
             {| past := past';
                future := unshift action (future (undoStackRef r)) |};
           world := w |}
    | (None, _) => r
    end.

(** [redo()]: [future.shift()]; when there was an action, run its
    [doWithData] and [past.push] it. *)
Definition redo : Runtime → Runtime :=
  λ r,
    match shift (future (undoStackRef r)) with
    | (Some action, future') =>
        let w := doWithData action (world r) in
        {| undoStackRef :=
             {| past := array_push action (past (undoStackRef r));
                future := future' |};
           world := w |}
    | (None, _) => r
    end.

(** The getters [undoAvailable] and [redoAvailable]. *)
Definition undoAvailable (s : UndoStack) : bool :=
  bool_decide (0 < length (past s)).
Definition redoAvailable (s : UndoStack) : bool :=
  bool_decide (0 < length (future s)).

(** [clear()]: truncates both arrays and returns [true]. *)
Definition clear : Runtime → bool * Runtime :=
  λ r,
    (true, {| undoStackRef := {| past := []; future := [] |};
              world := world r |}).

(** ** The hook: [useUndoStack] *)

(** [pushAction] forwards to [push]. *)
Definition pushAction {T : Type} (doFn undoFn : T → W → W) (args : T)
    : Runtime → Runtime :=
  push doFn undoFn args.

(** [pushManualAction(doFn, undoFn)]: the action is appended to [past]
    without being executed, and [future] is truncated. *)
Definition pushManualAction (doFn undoFn : W → W) : Runtime → Runtime :=
  λ r,
    let action := {| doWithData := doFn; undoWithData := undoFn |} in
    {| undoStackRef :=
         {| past := array_push action (past (undoStackRef r));
            future := [] |};
       world := world r |}.

(** The hook's [clear] callback drops the result of the stack's. *)
Definition clearUndoStack : Runtime → Runtime := λ r, snd (clear r).

(** [n] calls of a procedure in a row. *)
Fixpoint times (n : nat) (f : Runtime → Runtime) : Runtime → Runtime :=
  match n with
  | 0 => λ r, r
  | S n' => λ r, times n' f (f r)
  end.

End UndoStack.

Arguments mkUndoAction {W} _ _.
Arguments doWithData {W} _ _.
Arguments undoWithData {W} _ _.
Arguments mkUndoStack {W} _ _.
Arguments past {W} _.
Arguments future {W} _.
Arguments mkRuntime {W} _ _.
Arguments undoStackRef {W} _.
Arguments world {W} _.
Arguments createUndoStack {W}.
Arguments inWorld {W} _ _.
Arguments push {W T} _ _ _ _.
Arguments undo {W} _.
Arguments redo {W} _.
Arguments undoAvailable {W} _.
Arguments redoAvailable {W} _.
Arguments clear {W} _.
Arguments pushAction {W T} _ _ _ _.
Arguments pushManualAction {W} _ _ _.
Arguments clearUndoStack {W} _.
Arguments times {W} _ _ _.

(** ** Arguments of any kind: when [structuredClone] throws

    [push] is typed [<T extends unknown[]>]: a caller may hand it any
    JavaScript values.  The editor hands it strings, which
    [structuredClone] copies as they are; that case is [push] above.  The
    platform's structured clone algorithm rejects other values: a function
    or a symbol, alone or inside an array, makes it throw a
    [DataCloneError].  The values below are the fragment needed to tell the
    two cases apart. *)
Local Set Warnings "-register-all".

Inductive JSValue :=
  | JSUndefined
  | JSNull
  | JSBoolean (b : bool)
  | JSString (s : string)
  | JSArray (items : list JSValue)
  | JSFunction
  | JSSymbol.

(** The clone of a value, [None] where the algorithm throws. *)
Fixpoint cloneValue (v : JSValue) : option JSValue :=
  match v with
  | JSFunction | JSSymbol => None
  | JSArray items => JSArray <$> mapM cloneValue items
  | JSUndefined | JSNull | JSBoolean _ | JSString _ => Some v
  end.

(** [structuredClone(withArgumentsToClone)]: the rest parameter is an
    array, cloned item by item. *)
Definition structuredCloneUnknown (args : list JSValue)
    : option (list JSValue) :=
  mapM cloneValue args.

Section UnknownArguments.

Variable W : Type.

(** [push] on arguments of any kind: [None] when [structuredClone] throws,
    which is the first statement of [push], so that nothing has been
    executed or recorded by then. *)
Definition pushUnknown (doFn undoFn : list JSValue → W → W)
    (withArgumentsToClone : list JSValue)
    : Runtime W → option (Runtime W) :=
  λ r,
    match structuredCloneUnknown withArgumentsToClone with
    | None => None
    | Some clonedArgs =>
        let action := {| doWithData := doFn clonedArgs;
                         undoWithData := undoFn clonedArgs |} in
        let w := doWithData action (world r) in
        Some {| undoStackRef :=
                  {| past := array_push action (past (undoStackRef r));
                     future := [] |};
                world := w |}
    end.

End UnknownArguments.

Arguments pushUnknown {W} _ _ _ _.

(** ** The platform's JSON codec

    [JSON.parse] and [JSON.stringify] belong to the platform, not to the
    repository, so the editor is parametrised over them (Section [Editor]).
    The editor only ever stores arrays of strings under its history key;
    [JSON_parse] returns [None] where [JSON.parse] throws.  A blob that
    decodes to something other than an array of strings is outside this
    model.

    To run the editor on concrete inputs the parameter is instantiated with
    the codec below, which covers the fragment of JSON the examples need:
    arrays of strings without escapes and without white space. *)

Definition dquote : ascii := "034"%char.
Definition backslash : ascii := "092"%char.

Inductive ScanState :=
  | AtStart | AfterOpen | InString | AfterString | AfterComma | AtEnd.

Fixpoint scanArray (st : ScanState) (cur : string) (acc : list string)
    (s : string) : option (list string) :=
  match s with
  | EmptyString =>
      match st with AtEnd => Some (reverse acc) | _ => None end
  | String c s' =>
      match st with
      | AtStart =>
          if Ascii.eqb c "["%char then scanArray AfterOpen cur acc s'
          else None
      | AfterOpen =>
          if Ascii.eqb c "]"%char then scanArray AtEnd cur acc s'
          else if Ascii.eqb c dquote then scanArray InString "" acc s'
          else None
      | InString =>
          if Ascii.eqb c dquote then scanArray AfterString "" (cur :: acc) s'
          else if Ascii.eqb c backslash then None
          else scanArray InString (cur ++ String c "") acc s'
      | AfterString =>
          if Ascii.eqb c ","%char then scanArray AfterComma cur acc s'
          else if Ascii.eqb c "]"%char then scanArray AtEnd cur acc s'
          else None
      | AfterComma =>
          if Ascii.eqb c dquote then scanArray InString "" acc s'
          else None
      | AtEnd => None
      end
  end.

Definition plainParse (s : string) : option (list string) :=
  scanArray AtStart "" [] s.

Definition quoted (s : string) : string :=
  String dquote (s ++ String dquote "").

Fixpoint commaSeparated (l : list string) : string :=
  match l with
  | [] => ""
  | [x] => quoted x
  | x :: l' => quoted x ++ "," ++ commaSeparated l'
  end.

Definition plainStringify (l : list string) : string :=
  "[" ++ commaSeparated l ++ "]".

(** What [JSON.parse] can do with a blob: throw, return an array of
    strings, or return a value of another kind (an object, a number, an
    array holding something else than strings, ...).  The editor as it is
    modelled here covers the first two; [stringArrays] is the view of a
    parser that the editor's definitions take. *)
Inductive ParseResult :=
  | Throws
  | StringArray (l : list string)
  | OtherValue.

Definition stringArrays (parse : string → ParseResult)
    : string → option (list string) :=
  λ blob,
    match parse blob with
    | StringArray l => Some l
    | Throws | OtherValue => None
    end.

(** The codec above as such a parser; of the values of another kind it
    knows the empty object. *)
Definition plainParseResult (s : string) : ParseResult :=
  match plainParse s with
  | Some l => StringArray l
  | None => if String.eqb s "{}" then OtherValue else Throws
  end.

(** A storage holding a content and a log, written with the codec above. *)
Definition stored (content : string) (history : list string)
    : gmap string string :=
  <["textbox-content" := content]>
    (<["textbox-history" := plainStringify history]> ∅).

(** ** The editor: [Editor] *)

(** What the closures of the component can reach: the React state [text]
    and [isLoaded], the refs [isUndoRedoOperation] and [historyRef], and the
    browser's [localStorage]. *)
Record EditorState := mkEditorState {
  text : string;
  isLoaded : bool;
  isUndoRedoOperation : bool;
  historyRef : list string;
  localStorage : gmap string string
}.

Definition setText (v : string) : EditorState → EditorState :=
  λ e, {| text := v; isLoaded := isLoaded e;
          isUndoRedoOperation := isUndoRedoOperation e;
          historyRef := historyRef e; localStorage := localStorage e |}.

Definition setIsLoaded (b : bool) : EditorState → EditorState :=
  λ e, {| text := text e; isLoaded := b;
          isUndoRedoOperation := isUndoRedoOperation e;
          historyRef := historyRef e; localStorage := localStorage e |}.

Definition setIsUndoRedoOperation (b : bool) : EditorState → EditorState :=
  λ e, {| text := text e; isLoaded := isLoaded e;
          isUndoRedoOperation := b;
          historyRef := historyRef e; localStorage := localStorage e |}.

Definition setHistoryRef (h : list string) : EditorState → EditorState :=
  λ e, {| text := text e; isLoaded := isLoaded e;
          isUndoRedoOperation := isUndoRedoOperation e;
          historyRef := h; localStorage := localStorage e |}.

Definition setLocalStorage (m : gmap string string)
    : EditorState → EditorState :=
  λ e, {| text := text e; isLoaded := isLoaded e;
          isUndoRedoOperation := isUndoRedoOperation e;
          historyRef := historyRef e; localStorage := m |}.

(** [localStorage.getItem], [setItem] and [removeItem]; [getItem] returns
    [null] (here [None]) for a missing key. *)
Definition getItem (key : string) (e : EditorState) : option string :=
  localStorage e !! key.
Definition setItem (key value : string) : EditorState → EditorState :=
  λ e, setLocalStorage (<[key := value]> (localStorage e)) e.
Definition removeItem (key : string) : EditorState → EditorState :=
  λ e, setLocalStorage (delete key (localStorage e)) e.

(** JavaScript truthiness of a [string | null]: [null] and the empty string
    are falsy.  [truthy o] is the string when [o] is truthy. *)
Definition truthy (o : option string) : option string :=
  match o with
  | Some s => if String.eqb s "" then None else Some s
  | None => None
  end.

(** [o || d] for a [string | null]. *)
Definition orElse (o : option string) (d : string) : string :=
  match truthy o with
  | Some s => s
  | None => d
  end.

(** [a[i]] on an array of strings.  Out of range JavaScript reads
    [undefined]; the loop of the load effect reads in range only
    ([at_in_range]), so the value chosen here for that case is never seen. *)
Definition at_ (a : list string) (i : nat) : string := default "" (a !! i).

(** [for (let i = start; ...; i++) body], [count] rounds of it. *)
Fixpoint forRange {R : Type} (start count : nat) (body : nat → R → R)
    : R → R :=
  match count with
  | 0 => λ r, r
  | S count' => λ r, forRange (S start) count' body (body start r)
  end.

Definition defaultText : string :=
  "Type something here to test undo/redo functionality...".

Section Editor.

Variable JSON_parse : string → option (list string).
Variable JSON_stringify : list string → string.

Abbreviation Component := (Runtime EditorState).

(** The first render: [useState("")], [useState(false)],
    [useRef(createUndoStack())], [useRef(false)], [useRef([])], over the
    storage the browser holds. *)
Definition mount (storage : gmap string string) : Component :=
  {| undoStackRef := createUndoStack;
     world := {| text := ""; isLoaded := false;
                 isUndoRedoOperation := false; historyRef := [];
                 localStorage := storage |} |}.

(** The loop of the load effect, [for (let i = 1; i < history.length; i++)],
    as [count] rounds from [i = 1]: each round hands [pushAction] two
    closures of one parameter [text] and the two arguments [newText] and
    [oldText]; a closure called with both binds [text] to the first. *)
Definition replayRounds (history : list string) (count : nat)
    : Component → Component :=
  forRange 1 count
    (λ i,
       let newText := at_ history i in
       let oldText := at_ history (i - 1) in
       pushAction
         (λ args : string * string,
            let text := fst args in
            setIsUndoRedoOperation true
            >> setText text
            >> setIsUndoRedoOperation false)
         (λ args : string * string,
            let text := fst args in
            setIsUndoRedoOperation true
            >> setText text
            >> setIsUndoRedoOperation false)
         (newText, oldText)).

(** The effect that loads from [localStorage] on mount.  ([typeof window]
    is defined wherever an effect runs.)  The [try] block can only be left
    by [JSON.parse] throwing, before [historyRef] is assigned; what the
    [catch] writes to the console is not kept. *)
Definition loadEffect : Component → Component :=
  λ r,
    let savedText := getItem "textbox-content" (world r) in
    let savedHistory := getItem "textbox-history" (world r) in
    let initialText := orElse savedText "" in
    let r := inWorld (setText initialText) r in
    let r :=
      match truthy savedHistory with
      | Some savedHistory =>
        match JSON_parse savedHistory with
        | Some history =>
            let r := inWorld (setHistoryRef history) r in
            if bool_decide (1 < length history) then
              replayRounds history (length history - 1) r
            else r
        | None =>
            inWorld (setHistoryRef [initialText]) r
        end
      | None => inWorld (setHistoryRef [initialText]) r
      end in
    inWorld (setIsLoaded true) r.

(** The effect that saves [text] whenever [text] or [isLoaded] changed
    from the render before. *)
Definition saveEffect (before : EditorState)
    : EditorState → EditorState :=
  λ e,
    if bool_decide (text before = text e ∧ isLoaded before = isLoaded e)
    then e
    else if isLoaded e then setItem "textbox-content" (text e) e
    else e.

Definition saveHistoryToStorage (history : list string)
    : EditorState → EditorState :=
  setItem "textbox-history" (JSON_stringify history).

Definition updateText (newText oldText : string) : Component → Component :=
  λ r,
    if isUndoRedoOperation (world r) then
      inWorld (setText newText) r
    else
      let r := inWorld (setText newText) r in
      let newHistory := (historyRef (world r) ++ [newText])%list in
      let r := inWorld (setHistoryRef newHistory) r in
      let r := inWorld (saveHistoryToStorage newHistory) r in
      pushManualAction
        (setIsUndoRedoOperation true
         >> setText newText
         >> setIsUndoRedoOperation false)
        (setIsUndoRedoOperation true
         >> setText oldText
         >> setIsUndoRedoOperation false)
        r.

(** [handleTextChange(e)] with [e.target.value = newText]. *)
Definition handleTextChange (newText : string) : Component → Component :=
  λ r,
    let oldText := text (world r) in
    updateText newText oldText r.

Definition handleUndo : Component → Component := undo.
Definition handleRedo : Component → Component := redo.

Definition handleClear : Component → Component :=
  λ r,
    let oldText := text (world r) in
    let r := inWorld (setText "") r in
    let newHistory := [""] in
    let r := inWorld (setHistoryRef newHistory) r in
    let r := inWorld (saveHistoryToStorage newHistory) r in
    let r := clearUndoStack r in
    pushAction
      (λ _ : string * string,
         setIsUndoRedoOperation true
         >> setText ""
         >> setIsUndoRedoOperation false)
      (λ args : string * string,
         let text := fst args in
         setIsUndoRedoOperation true
         >> setText text
         >> setIsUndoRedoOperation false
         >> (λ e,
               let restoredHistory := (historyRef e ++ [text])%list in
               (setHistoryRef restoredHistory
                >> saveHistoryToStorage restoredHistory) e))
      ("", oldText)
      r.

Definition handleClearStorage : Component → Component :=
  inWorld (removeItem "textbox-content")
  >> inWorld (removeItem "textbox-history")
  >> inWorld (setText defaultText)
  >> inWorld (setHistoryRef [defaultText])
  >> clearUndoStack.

(** An event handler followed by the render it causes, where
    [saveEffect] runs. *)
Definition rendered (handler : Component → Component)
    : Component → Component :=
  λ r, inWorld (saveEffect (world r)) (handler r).

(** The operations of the session, by the names the presentation layer
    knows them: each is a handler of the component. *)
Definition initialize (storage : gmap string string) : Component :=
  loadEffect (mount storage).
Definition commit (v : string) : Component → Component :=
  handleTextChange v.
Definition clearContent : Component → Component := handleClear.
Definition hardReset : Component → Component := handleClearStorage.

(** The action that [updateText] records for the step [old → new]. *)
Definition typed (old new : string) : UndoAction EditorState :=
  {| doWithData :=
       setIsUndoRedoOperation true >> setText new
       >> setIsUndoRedoOperation false;
     undoWithData :=
       setIsUndoRedoOperation true >> setText old
       >> setIsUndoRedoOperation false |}.

(** The action that round [i] of [replayRounds] records: both closures
    are handed the cloned pair [(history[i], history[i - 1])] and both name
    only its first component. *)
Definition replayed (history : list string) (i : nat)
    : UndoAction EditorState :=
  {| doWithData :=
       (λ args : string * string,
          let text := fst args in
          setIsUndoRedoOperation true >> setText text
          >> setIsUndoRedoOperation false)
         (at_ history i, at_ history (i - 1));
     undoWithData :=
       (λ args : string * string,
          let text := fst args in
          setIsUndoRedoOperation true >> setText text
          >> setIsUndoRedoOperation false)
         (at_ history i, at_ history (i - 1)) |}.

(** The replay as the specification words it: the pairs (value at index
    [i - 1], value at index [i]), for [i = 1 .. N - 1] in ascending order,
    recorded as manual pushes, so that no forward procedure runs.  Kept
    next to [loadEffect] to compare the two; the rest of the effect is
    as in the source. *)
Definition replayManually (history : list string)
    : Component → Component :=
  forRange 1 (length history - 1)
    (λ i,
       pushManualAction
         (doWithData (typed (at_ history (i - 1)) (at_ history i)))
         (undoWithData (typed (at_ history (i - 1)) (at_ history i)))).

Definition initializeAsSpecified (storage : gmap string string)
    : Component :=
  let r := mount storage in
  let savedText := getItem "textbox-content" (world r) in
  let savedHistory := getItem "textbox-history" (world r) in
  let initialText := orElse savedText "" in
  let r := inWorld (setText initialText) r in
  let r :=
    match truthy savedHistory with
    | Some savedHistory =>
      match JSON_parse savedHistory with
      | Some history =>
          replayManually history (inWorld (setHistoryRef history) r)
      | None => inWorld (setHistoryRef [initialText]) r
      end
    | None => inWorld (setHistoryRef [initialText]) r
    end in
  inWorld (setIsLoaded true) r.

(** Commits in a row, the first of the list first. *)
Definition commits (cs : list string) : Component → Component :=
  λ r, foldl (λ r c, commit c r) r cs.

(** The user's requests, and a run of the component: the load effect on
    mount, then the handler of each request in turn, every one followed by
    its render. *)
Inductive Event :=
  | Commit (v : string)
  | Undo
  | Redo
  | ClearContent
  | HardReset.

Definition handle (ev : Event) : Component → Component :=
  rendered
    match ev with
    | Commit v => commit v
    | Undo => handleUndo
    | Redo => handleRedo
    | ClearContent => clearContent
    | HardReset => hardReset
    end.

Definition run (storage : gmap string string) (evs : list Event)
    : Component :=
  foldl (λ r ev, handle ev r) (rendered loadEffect (mount storage)) evs.

(** An action is quiet when both its procedures leave the flag
    [isUndoRedoOperation] lowered; a component is at rest when the flag is
    lowered and every recorded action is quiet. *)
Definition quiet (a : UndoAction EditorState) : Prop :=
  ∀ e, isUndoRedoOperation (doWithData a e) = false
       ∧ isUndoRedoOperation (undoWithData a e) = false.

Definition atRest (r : Component) : Prop :=
  isUndoRedoOperation (world r) = false
  ∧ Forall quiet (past (undoStackRef r))
  ∧ Forall quiet (future (undoStackRef r)).

(** The live value, the log and the flags of a component.  The flags are
    the stack's getters, read when they are looked at (the hook copies them
    at each render). *)
Definition live (r : Component) : string := text (world r).
Definition log (r : Component) : list string := historyRef (world r).
Definition canUndo (r : Component) : bool :=
  undoAvailable (undoStackRef r).
Definition canRedo (r : Component) : bool :=
  redoAvailable (undoStackRef r).

End Editor.

(** ** The keyboard shortcuts *)

(** What [handleKeyDown] reads of a [KeyboardEvent], and whether
    [preventDefault] was called on it. *)
Record KeyboardEvent := mkKeyboardEvent {
  ctrlKey : bool;
  metaKey : bool;
  shiftKey : bool;
  key : string;
  defaultPrevented : bool
}.

Definition preventDefault (e : KeyboardEvent) : KeyboardEvent :=
  {| ctrlKey := ctrlKey e; metaKey := metaKey e; shiftKey := shiftKey e;
     key := key e; defaultPrevented := true |}.

(** [handleKeyDown(e)], the listener the component registers on the
    document: the event and the component as the listener leaves them. *)
Definition handleKeyDown (e : KeyboardEvent)
    : Runtime EditorState → KeyboardEvent * Runtime EditorState :=
  λ r,
    if ctrlKey e || metaKey e then
      if String.eqb (key e) "z" && negb (shiftKey e) then
        let e := preventDefault e in
        (e, handleUndo r)
      else if String.eqb (key e) "y"
              || (String.eqb (key e) "z" && shiftKey e) then
        let e := preventDefault e in
        (e, handleRedo r)
      else (e, r)
    else (e, r).

(** ** Names used by the properties below *)

(** The actions of a stack in the order they were done: the executed ones,
    then the reversed ones, the next to redo first. *)
Definition timeline {W : Type} (s : UndoStack W) : list (UndoAction W) :=
  (past s ++ future s)%list.



(** The action that [handleClear] records when the live value is
    [oldText]: the closures as they are written there, on the cloned pair
    [("", oldText)]. *)
Definition clearAction (JSON_stringify : list string → string)
    (oldText : string) : UndoAction EditorState :=
  {| doWithData :=
       (λ _ : string * string,
          setIsUndoRedoOperation true
          >> setText ""
          >> setIsUndoRedoOperation false)
         ("", oldText);
     undoWithData :=
       (λ args : string * string,
          let text := fst args in
          setIsUndoRedoOperation true
          >> setText text
          >> setIsUndoRedoOperation false
          >> (λ e,
                let restoredHistory := (historyRef e ++ [text])%list in
                (setHistoryRef restoredHistory
                 >> saveHistoryToStorage JSON_stringify restoredHistory) e))
         ("", oldText) |}.




(** The page loaded again in the same browser: a new component over the
    storage the old one leaves. *)
Definition remount (JSON_parse : string → option (list string))
    (r : Runtime EditorState) : Runtime EditorState :=
  initialize JSON_parse (localStorage (world r)).

(** The stored content is the live value; or there is none and the live
    value is the default text. *)
Definition contentSaved (r : Runtime EditorState) : Prop :=
  getItem "textbox-content" (world r) = Some (live r)
  ∨ (getItem "textbox-content" (world r) = None ∧ live r = defaultText).

(** An action is tame when its procedures leave [isLoaded] and the stored
    content as they are. *)
Definition tame (a : UndoAction EditorState) : Prop :=
  ∀ e,
    (isLoaded (doWithData a e) = isLoaded e
     ∧ getItem "textbox-content" (doWithData a e)
       = getItem "textbox-content" e)
    ∧ (isLoaded (undoWithData a e) = isLoaded e
       ∧ getItem "textbox-content" (undoWithData a e)
         = getItem "textbox-content" e).

(** Loaded, the content saved, and every recorded action tame. *)
Definition settled (r : Runtime EditorState) : Prop :=
  isLoaded (world r) = true
  ∧ contentSaved r
  ∧ Forall tame (past (undoStackRef r))
  ∧ Forall tame (future (undoStackRef r)).

(** * Properties *)

(** ** Arrays *)

Lemma list_rev_case {A : Type} (a : list A) :
  a = [] ∨ ∃ a' x, a = (a' ++ [x])%list.
Proof.
  induction a as [|y a' _] using rev_ind; [by left | right; eauto].
Qed.

Lemma pop_empty {A : Type} : pop (@nil A) = (None, []).
Proof. reflexivity. Qed.

Lemma pop_array_push {A : Type} (a : list A) (x : A) :
  pop (array_push x a) = (Some x, a).
Proof.
  unfold pop, array_push.
  rewrite last_snoc, removelast_last.
  reflexivity.
Qed.

Lemma pop_shorter {A : Type} (a : list A) :
  length (snd (pop a)) = length a - 1 ∧
  (a ≠ [] → ∃ x, fst (pop a) = Some x).
Proof.
  destruct (list_rev_case a) as [-> | (a' & y & ->)].
  - split; [reflexivity | congruence].
  - pose proof (pop_array_push a' y) as Hpop. unfold array_push in Hpop.
    rewrite Hpop, length_app. simpl. split; [lia | eauto].
Qed.

Lemma forRange_app {R : Type} (body : nat → R → R) (count start : nat)
    (r : R) :
  forRange start (S count) body r
  = body (start + count) (forRange start count body r).
Proof.
  revert start r.
  induction count as [|count IH]; intros start r.
  - simpl. by rewrite Nat.add_0_r.
  - change (forRange start (S (S count)) body r)
      with (forRange (S start) (S count) body (body start r)).
    rewrite IH. simpl. by rewrite Nat.add_succ_r.
Qed.

(** ** The stack *)

Section StackFacts.

Context {W : Type}.
Implicit Types (r : Runtime W) (a : UndoAction W) (w : W).
Implicit Types (p f : list (UndoAction W)).

Lemma undo_last p a f w :
  undo (mkRuntime (mkUndoStack (array_push a p) f) w)
  = mkRuntime (mkUndoStack p (a :: f)) (undoWithData a w).
Proof. unfold undo. simpl. by rewrite pop_array_push. Qed.

Lemma redo_first p a f w :
  redo (mkRuntime (mkUndoStack p (a :: f)) w)
  = mkRuntime (mkUndoStack (array_push a p) f) (doWithData a w).
Proof. reflexivity. Qed.

Lemma undo_nothing f w :
  undo (mkRuntime (mkUndoStack [] f) w) = mkRuntime (mkUndoStack [] f) w.
Proof. reflexivity. Qed.

Lemma redo_nothing p w :
  redo (mkRuntime (mkUndoStack p []) w) = mkRuntime (mkUndoStack p []) w.
Proof. reflexivity. Qed.

Lemma undoAvailable_length (s : UndoStack W) :
  undoAvailable s = true ↔ 0 < length (past s).
Proof. unfold undoAvailable. apply bool_decide_eq_true. Qed.

Lemma undoAvailable_empty (s : UndoStack W) :
  undoAvailable s = false ↔ past s = [].
Proof.
  unfold undoAvailable. rewrite bool_decide_eq_false.
  destruct (past s); simpl; split; intros; try done; lia.
Qed.

Lemma redoAvailable_empty (s : UndoStack W) :
  redoAvailable s = false ↔ future s = [].
Proof.
  unfold redoAvailable. rewrite bool_decide_eq_false.
  destruct (future s); simpl; split; intros; try done; lia.
Qed.

(** One [undo] shortens [past] by one action, if there is one. *)
Lemma undo_past_length r :
  length (past (undoStackRef (undo r)))
  = length (past (undoStackRef r)) - 1.
Proof.
  unfold undo.
  pose proof (pop_shorter (past (undoStackRef r))) as [Hlen _].
  destruct (pop (past (undoStackRef r))) as [[action|] past'] eqn:Hpop;
    simpl in *.
  - exact Hlen.
  - unfold pop in Hpop. destruct (last (past (undoStackRef r))) eqn:Hl.
    + discriminate.
    + apply last_None in Hl. rewrite Hl. reflexivity.
Qed.

Lemma times_undo_past_length k r :
  length (past (undoStackRef (times k undo r)))
  = length (past (undoStackRef r)) - k.
Proof.
  revert r. induction k as [|k IH]; intros r; simpl.
  - lia.
  - rewrite IH, undo_past_length. lia.
Qed.

Lemma times_succ_last k (g : Runtime W → Runtime W) r :
  times (S k) g r = g (times k g r).
Proof.
  revert r. induction k as [|k IH]; intros r.
  - reflexivity.
  - change (times (S (S k)) g r) with (times (S k) g (g r)).
    rewrite IH. reflexivity.
Qed.

End StackFacts.

(** ** The editor *)

Section EditorFacts.

Variable JSON_parse : string → option (list string).
Variable JSON_stringify : list string → string.

Abbreviation Component := (Runtime EditorState).
Abbreviation commit' := (commit JSON_stringify).
Abbreviation commits' := (commits JSON_stringify).
Abbreviation clearContent' := (clearContent JSON_stringify).
Abbreviation initialize' := (initialize JSON_parse).
Abbreviation handle' := (handle JSON_stringify).

Implicit Types (r : Component) (v : string) (cs : list string).

(** A commit outside an undo or redo: what it leaves behind. *)
Lemma commit_at_rest v r :
  isUndoRedoOperation (world r) = false →
  commit' v r
  = {| undoStackRef :=
         {| past := array_push (typed (live r) v) (past (undoStackRef r));
            future := [] |};
       world :=
         {| text := v; isLoaded := isLoaded (world r);
            isUndoRedoOperation := false;
            historyRef := (log r ++ [v])%list;
            localStorage :=
              <["textbox-history" :=
                  JSON_stringify (log r ++ [v])%list]>
                (localStorage (world r)) |} |}.
Proof.
  destruct r as [s [t l fl h ls]]. simpl. intros ->. reflexivity.
Qed.

Lemma commit_stays_at_rest v r :
  isUndoRedoOperation (world r) = false →
  isUndoRedoOperation (world (commit' v r)) = false.
Proof. intros Hrest. by rewrite commit_at_rest. Qed.

Lemma commits_stay_at_rest cs r :
  isUndoRedoOperation (world r) = false →
  isUndoRedoOperation (world (commits' cs r)) = false.
Proof.
  revert r. induction cs as [|c cs IH]; intros r Hrest; [done|].
  apply IH, commit_stays_at_rest, Hrest.
Qed.

Lemma commits_past_length cs r :
  isUndoRedoOperation (world r) = false →
  length (past (undoStackRef (commits' cs r)))
  = length (past (undoStackRef r)) + length cs.
Proof.
  revert r. induction cs as [|c cs IH]; intros r Hrest; simpl.
  - lia.
  - change (foldl _ (commit' c r) cs) with (commits' cs (commit' c r)).
    rewrite IH by (by apply commit_stays_at_rest).
    rewrite commit_at_rest by done. simpl. unfold array_push.
    rewrite length_app. simpl. lia.
Qed.

(** As many undos as there were commits lead back to where the commits
    started: same live value, same executed sequence. *)
Lemma commits_undone cs r :
  isUndoRedoOperation (world r) = false →
  let r' := times (length cs) handleUndo (commits' cs r) in
  live r' = live r
  ∧ past (undoStackRef r') = past (undoStackRef r)
  ∧ isUndoRedoOperation (world r') = false.
Proof.
  revert r. induction cs as [|c cs IH]; intros r Hrest.
  - simpl. done.
  - change (commits' (c :: cs) r) with (commits' cs (commit' c r)).
    change (length (c :: cs)) with (S (length cs)).
    cbv zeta. rewrite times_succ_last.
    destruct (IH (commit' c r)) as (Hlive & Hpast & Hflag);
      [by apply commit_stays_at_rest|].
    destruct (times (length cs) handleUndo (commits' cs (commit' c r)))
      as [[p f] w].
    rewrite commit_at_rest in Hlive, Hpast by done.
    unfold live in *. simpl in *. subst p.
    unfold handleUndo. rewrite undo_last. simpl. done.
Qed.

(** *** Loading *)

Lemma truthy_Some (s : string) : s ≠ "" → truthy (Some s) = Some s.
Proof.
  intros Hs. simpl. destruct (String.eqb_spec s ""); [done | reflexivity].
Qed.

Lemma truthy_is_Some (o : option string) s :
  truthy o = Some s → o = Some s ∧ s ≠ "".
Proof.
  destruct o as [s'|]; simpl; [|done].
  destruct (String.eqb_spec s' ""); [done|].
  intros [= ->]. done.
Qed.

Lemma orElse_Some (s d : string) : s ≠ "" → orElse (Some s) d = s.
Proof. intros Hs. unfold orElse. by rewrite truthy_Some. Qed.

(** The last entry of a log is the one at index [length - 1]. *)
Lemma at_last (history : list string) v :
  last history = Some v → at_ history (length history - 1) = v.
Proof.
  intros Hlast. unfold at_.
  rewrite last_lookup in Hlast.
  replace (length history - 1) with (pred (length history)) by lia.
  by rewrite Hlast.
Qed.

(** The loop of [loadEffect] reads inside the array. *)
Lemma at_in_range (history : list string) i :
  1 ≤ i < length history →
  is_Some (history !! i) ∧ is_Some (history !! (i - 1)).
Proof. intros Hi. split; apply lookup_lt_is_Some; lia. Qed.

(** After [count] rounds the executed sequence has grown by the actions of
    the rounds, in order, and each has been run on the state once. *)
Lemma replayRounds_spec (history : list string) count r :
  replayRounds history count r
  = {| undoStackRef :=
         {| past := (past (undoStackRef r)
                     ++ map (replayed history) (seq 1 count))%list;
            future := match count with
                      | 0 => future (undoStackRef r)
                      | _ => []
                      end |};
       world := foldl (λ e a, doWithData a e) (world r)
                  (map (replayed history) (seq 1 count)) |}.
Proof.
  unfold replayRounds.
  induction count as [|count IH].
  - simpl. rewrite app_nil_r. by destruct r as [[p f] w].
  - rewrite forRange_app, IH. clear IH.
    rewrite seq_S, map_app, foldl_app, app_assoc.
    unfold pushAction, push, array_push, structuredClone. simpl.
    reflexivity.
Qed.

(** What the rounds leave in the state: the live value is the entry the
    last round read. *)
Lemma replayed_world (history : list string) count (e : EditorState) :
  foldl (λ e a, doWithData a e) e
    (map (replayed history) (seq 1 (S count)))
  = {| text := at_ history (S count); isLoaded := isLoaded e;
       isUndoRedoOperation := false; historyRef := historyRef e;
       localStorage := localStorage e |}.
Proof.
  revert e. induction count as [|count IH]; intros e.
  - reflexivity.
  - rewrite seq_S, map_app, foldl_app, IH. reflexivity.
Qed.

(** [initialize] on a stored log that parses. *)
Lemma initialize_parsed storage blob history :
  storage !! "textbox-history" = Some blob →
  blob ≠ "" →
  JSON_parse blob = Some history →
  initialize' storage
  = inWorld (setIsLoaded true)
      (replayRounds history (length history - 1)
         (inWorld (setHistoryRef history)
            (inWorld (setText (orElse (storage !! "textbox-content") ""))
               (mount storage)))).
Proof.
  intros Hblob Hne Hparse.
  unfold initialize, loadEffect, getItem. simpl.
  rewrite Hblob, truthy_Some, Hparse by done.
  case_bool_decide as Hlen; [reflexivity|].
  replace (length history - 1) with 0 by lia. reflexivity.
Qed.

(** [initialize] on a stored log that does not parse, or on none. *)
Lemma initialize_fallback storage :
  match storage !! "textbox-history" with
  | Some blob => JSON_parse blob = None
  | None => True
  end →
  initialize' storage
  = {| undoStackRef := createUndoStack;
       world :=
         {| text := orElse (storage !! "textbox-content") "";
            isLoaded := true; isUndoRedoOperation := false;
            historyRef := [orElse (storage !! "textbox-content") ""];
            localStorage := storage |} |}.
Proof.
  intros Hblob.
  unfold initialize, loadEffect, getItem. simpl.
  destruct (storage !! "textbox-history") as [blob|]; [|reflexivity].
  destruct (truthy (Some blob)) as [s|] eqn:Htruthy; [|reflexivity].
  apply truthy_is_Some in Htruthy as [[= ->] _].
  rewrite Hblob. reflexivity.
Qed.

(** *** Undo after clear *)

(** What [handleClear] leaves behind: a stack holding the clear action
    alone, an empty live value and the one-entry log. *)
Lemma clearContent_then_undo r :
  isUndoRedoOperation (world r) = false →
  handleUndo (clearContent' r)
  = {| undoStackRef :=
         {| past := [];
            future := past (undoStackRef (clearContent' r)) |};
       world :=
         {| text := ""; isLoaded := isLoaded (world r);
            isUndoRedoOperation := false;
            historyRef := [""; ""];
            localStorage :=
              <["textbox-history" := JSON_stringify [""; ""]]>
                (<["textbox-history" := JSON_stringify [""]]>
                   (localStorage (world r))) |} |}.
Proof. destruct r as [s [t l fl h ls]]. simpl. intros ->. reflexivity. Qed.

(** C1 (the code departs from it): after commit(v), clearContent() and
    undo(), the live value is the empty string, whatever [v] was, and the
    log is the cleared one-entry log with one more empty entry: the undo
    procedure of the clear action names the first cloned argument, the
    empty string, not the prior value passed second. *)
Theorem undo_of_clear_keeps_empty v r :
  isUndoRedoOperation (world r) = false →
  let r' := handleUndo (clearContent' (commit' v r)) in
  live r' = "" ∧ log r' = [""; ""] ∧ canUndo r' = false
  ∧ canRedo r' = true.
Proof.
  intros Hrest r'. subst r'.
  rewrite clearContent_then_undo by (by apply commit_stays_at_rest).
  done.
Qed.

(** *** Undo after loading *)

(** C2 (the code departs from it): after initialize() has loaded the log
    ["", "a", "ab", "abc"], three undos leave the live values "abc", "ab"
    and "a", each the newer value of its pair, and the fourth undo changes
    nothing. *)
Theorem undos_after_load_repeat_newer storage blob :
  storage !! "textbox-history" = Some blob →
  blob ≠ "" →
  JSON_parse blob = Some [""; "a"; "ab"; "abc"] →
  let r := initialize' storage in
  live r = "abc"
  ∧ live (times 1 handleUndo r) = "abc"
  ∧ live (times 2 handleUndo r) = "ab"
  ∧ live (times 3 handleUndo r) = "a"
  ∧ times 4 handleUndo r = times 3 handleUndo r.
Proof.
  intros Hblob Hne Hparse r. subst r.
  rewrite (initialize_parsed _ _ _ Hblob Hne Hparse).
  repeat split; reflexivity.
Qed.

(** *** Replay of the stored log *)

(** C3 (as amended): when initialize() finds a stored log of length N,
    it records, for i = 1 .. N - 1 in ascending order, one action per
    pair (value at index i - 1, value at index i) as an immediate-execute
    push: the forward procedure of each, which sets the live value to the
    value at index i, is run on the state as the action is recorded.
    Afterwards the executed sequence holds exactly these N - 1 actions
    (none when N = 0), in the order of the log, the reversed sequence is
    empty and the in-memory log is the stored one. *)
Theorem initialize_replays_log_executing storage blob history :
  storage !! "textbox-history" = Some blob →
  blob ≠ "" →
  JSON_parse blob = Some history →
  let r := initialize' storage in
  let N := length history in
  past (undoStackRef r) = map (replayed history) (seq 1 (N - 1))
  ∧ length (past (undoStackRef r)) = N - 1
  ∧ future (undoStackRef r) = []
  ∧ log r = history
  ∧ world r
    = setIsLoaded true
        (foldl (λ e a, doWithData a e)
           (setHistoryRef history
              (setText (orElse (storage !! "textbox-content") "")
                 (world (mount storage))))
           (past (undoStackRef r)))
  ∧ (∀ i e, 1 ≤ i < N →
       text (doWithData (replayed history i) e) = at_ history i).
Proof.
  intros Hblob Hne Hparse r N. subst r N.
  rewrite (initialize_parsed _ _ _ Hblob Hne Hparse).
  rewrite replayRounds_spec. simpl.
  split; [reflexivity|].
  split; [by rewrite length_map, length_seq|].
  split; [by destruct (length history - 1)|].
  split; [|split; [reflexivity | by intros]].
  unfold log. simpl.
  destruct (length history - 1) as [|count]; [reflexivity|].
  by rewrite replayed_world.
Qed.

(** C10: after initialize() with a stored log [v0, ..., vn], n ≥ 1, that
    parses, the live value is vn, the last entry, whatever the stored
    content is. *)
Theorem initialize_live_is_last_entry storage blob v0 vs vn :
  storage !! "textbox-history" = Some blob →
  blob ≠ "" →
  JSON_parse blob = Some (v0 :: vs ++ [vn])%list →
  live (initialize' storage) = vn.
Proof.
  intros Hblob Hne Hparse.
  rewrite (initialize_parsed _ _ _ Hblob Hne Hparse).
  rewrite replayRounds_spec. unfold live. simpl.
  rewrite length_app. simpl.
  replace (length vs + 1 - 0) with (S (length vs)) by lia.
  rewrite replayed_world. simpl.
  replace (S (length vs))
    with (length (v0 :: vs ++ [vn])%list - 1)
    by (simpl; rewrite length_app; simpl; lia).
  apply at_last.
  change (v0 :: vs ++ [vn])%list with ((v0 :: vs) ++ [vn])%list.
  apply last_snoc.
Qed.

(** C7: when the stored log does not parse and the stored content is
    "hello", initialize() still completes (the component is loaded): the
    live value is "hello", nothing can be undone, and the in-memory log is
    ["hello"]. *)
Theorem unparseable_log_falls_back storage blob :
  storage !! "textbox-content" = Some "hello" →
  storage !! "textbox-history" = Some blob →
  JSON_parse blob = None →
  let r := initialize' storage in
  live r = "hello"
  ∧ canUndo r = false
  ∧ log r = ["hello"]
  ∧ isLoaded (world r) = true.
Proof.
  intros Hcontent Hblob Hparse r. subst r.
  rewrite initialize_fallback by (by rewrite Hblob).
  rewrite Hcontent. done.
Qed.

(** *** Commits, undo and redo *)

(** Undo then redo of a commit gives back the very state the commit
    left. *)
Lemma commit_undo_redo v r :
  isUndoRedoOperation (world r) = false →
  handleRedo (handleUndo (commit' v r)) = commit' v r.
Proof.
  intros Hrest. rewrite commit_at_rest by done.
  unfold handleUndo, handleRedo. rewrite undo_last, redo_first.
  reflexivity.
Qed.

(** C6: commit(v), undo(), redo() leaves the live value equal to v, and
    the executed and the reversed sequence as long as they were right
    after commit(v). *)
Theorem redo_after_undo_restores_commit v r :
  isUndoRedoOperation (world r) = false →
  let r1 := commit' v r in
  let r2 := handleRedo (handleUndo r1) in
  live r2 = v
  ∧ length (past (undoStackRef r2)) = length (past (undoStackRef r1))
  ∧ length (future (undoStackRef r2)) = length (future (undoStackRef r1)).
Proof.
  intros Hrest r1 r2. subst r1 r2.
  rewrite commit_undo_redo by done.
  rewrite commit_at_rest by done. done.
Qed.

(** C4: after the commits c1 .. cn (n ≥ 1) on a component with no
    history, from any live value, n undos bring the live value back to
    what it was before c1; undo is available after each of the first
    n - 1 undos (and before the first) and no longer after the n-th. *)
Theorem undos_revert_commits c1 cs r :
  isUndoRedoOperation (world r) = false →
  past (undoStackRef r) = [] →
  let n := length (c1 :: cs) in
  let r' := commits' (c1 :: cs) r in
  live (times n handleUndo r') = live r
  ∧ (∀ k, k < n → canUndo (times k handleUndo r') = true)
  ∧ canUndo (times n handleUndo r') = false.
Proof.
  intros Hrest Hpast n r'.
  destruct (commits_undone (c1 :: cs) r Hrest) as (Hlive & Hp & _).
  fold n r' in Hlive, Hp.
  split; [exact Hlive|]. split.
  - intros k Hk. apply undoAvailable_length.
    unfold handleUndo. rewrite times_undo_past_length.
    subst r'. rewrite commits_past_length by done.
    fold n. lia.
  - apply undoAvailable_empty. by rewrite Hp.
Qed.

(** C5: a push, immediate or manual, leaves the reversed sequence empty;
    so after commit(a), commit(b), undo() and commit(c) redo is not
    available and redo() changes nothing. *)
Theorem push_discards_redo a b c r :
  isUndoRedoOperation (world r) = false →
  (∀ (W T : Type) (doFn undoFn : T → W → W) args (r0 : Runtime W),
     future (undoStackRef (pushAction doFn undoFn args r0)) = [])
  ∧ (∀ (W : Type) (doFn undoFn : W → W) (r0 : Runtime W),
       future (undoStackRef (pushManualAction doFn undoFn r0)) = [])
  ∧ let r' := commit' c (handleUndo (commit' b (commit' a r))) in
    canRedo r' = false ∧ handleRedo r' = r'.
Proof.
  intros Hrest.
  split; [reflexivity|]. split; [reflexivity|].
  assert (isUndoRedoOperation
            (world (handleUndo (commit' b (commit' a r)))) = false)
    as Hrest'.
  { rewrite (commit_at_rest b) by (by apply commit_stays_at_rest).
    unfold handleUndo. by rewrite undo_last. }
  cbv zeta. rewrite (commit_at_rest c) by done.
  split; reflexivity.
Qed.

(** *** Hard reset *)

(** C8: after hardReset(), whatever the history was, undo() changes
    nothing: both stored keys are gone, the live value is the default
    text, the in-memory log is that one entry, and the stack is empty, so
    that undo is not available. *)
Theorem hardReset_not_undoable r :
  let r' := hardReset r in
  handleUndo r' = r'
  ∧ getItem "textbox-content" (world r') = None
  ∧ getItem "textbox-history" (world r') = None
  ∧ live r' = defaultText
  ∧ log r' = [defaultText]
  ∧ undoStackRef r' = createUndoStack
  ∧ canUndo r' = false.
Proof.
  destruct r as [s [t l fl h ls]].
  cbv zeta. unfold hardReset, handleClearStorage, andThen, getItem.
  simpl.
  repeat split; try reflexivity.
  - rewrite lookup_delete_ne by done. apply lookup_delete_eq.
  - apply lookup_delete_eq.
Qed.

(** *** Every state the component reaches is at rest *)

Lemma rendered_stack (h : Component → Component) r :
  undoStackRef (rendered h r) = undoStackRef (h r).
Proof. reflexivity. Qed.

Lemma rendered_flag (h : Component → Component) r :
  isUndoRedoOperation (world (rendered h r))
  = isUndoRedoOperation (world (h r)).
Proof.
  unfold rendered, saveEffect. simpl.
  case_bool_decide; [reflexivity|].
  by destruct (isLoaded (world (h r))).
Qed.

Lemma rendered_atRest (h : Component → Component) r :
  atRest (h r) → atRest (rendered h r).
Proof.
  unfold atRest. by rewrite rendered_stack, rendered_flag.
Qed.

Lemma replayed_quiet (history : list string) (l : list nat) :
  Forall quiet (map (replayed history) l).
Proof.
  apply Forall_forall. intros a Ha.
  apply list_elem_of_fmap in Ha as (i & -> & _).
  intros e. split; reflexivity.
Qed.

Lemma loadEffect_atRest storage : atRest (initialize' storage).
Proof.
  destruct (storage !! "textbox-history") as [blob|] eqn:Hblob.
  - destruct (decide (blob = "")) as [->|Hne].
    + unfold initialize, loadEffect, getItem. simpl. rewrite Hblob.
      simpl. repeat split; constructor.
    + destruct (JSON_parse blob) as [history|] eqn:Hparse.
      * rewrite (initialize_parsed _ _ _ Hblob Hne Hparse).
        rewrite replayRounds_spec. unfold atRest. simpl.
        split; [|split].
        -- destruct (length history - 1) as [|count]; [reflexivity|].
           by rewrite replayed_world.
        -- apply replayed_quiet.
        -- destruct (length history - 1); constructor.
      * rewrite initialize_fallback by (by rewrite Hblob).
        repeat split; constructor.
  - rewrite initialize_fallback by (by rewrite Hblob).
    repeat split; constructor.
Qed.

Lemma undo_atRest r : atRest r → atRest (handleUndo r).
Proof.
  destruct r as [[p f] w]. intros (Hflag & Hp & Hf). simpl in *.
  unfold handleUndo.
  destruct (list_rev_case p) as [-> | (p' & a & ->)].
  - by rewrite undo_nothing.
  - change (p' ++ [a])%list with (array_push a p').
    rewrite undo_last.
    rewrite Forall_app, Forall_singleton in Hp. destruct Hp as [Hp' Ha].
    repeat split; simpl; [apply Ha | done | by constructor].
Qed.

Lemma redo_atRest r : atRest r → atRest (handleRedo r).
Proof.
  destruct r as [[p f] w]. intros (Hflag & Hp & Hf). simpl in *.
  unfold handleRedo.
  destruct f as [|a f'].
  - by rewrite redo_nothing.
  - rewrite redo_first.
    rewrite Forall_cons in Hf. destruct Hf as [Ha Hf'].
    repeat split; simpl; [apply Ha | | done].
    unfold array_push. rewrite Forall_app, Forall_singleton. done.
Qed.

Lemma handle_atRest ev r : atRest r → atRest (handle' ev r).
Proof.
  intros Hr. apply rendered_atRest. destruct ev as [v| | | |].
  - destruct Hr as (Hflag & Hp & Hf).
    rewrite commit_at_rest by done.
    repeat split; simpl; [|constructor].
    unfold array_push. rewrite Forall_app, Forall_singleton.
    split; [done|]. intros e. split; reflexivity.
  - by apply undo_atRest.
  - by apply redo_atRest.
  - destruct Hr as (Hflag & _). destruct r as [s [t l fl h ls]].
    simpl in Hflag. subst fl.
    repeat split; simpl; repeat constructor.
  - destruct Hr as (Hflag & _). destruct r as [s [t l fl h ls]].
    simpl in Hflag. subst fl.
    repeat split; simpl; constructor.
Qed.

(** Whatever was stored and whatever the user asks for, the component is at
    rest between two requests: the hypothesis of the theorems above on
    [isUndoRedoOperation] holds wherever a request can arrive. *)
Lemma run_atRest storage (evs : list Event) :
  atRest (run JSON_parse JSON_stringify storage evs).
Proof.
  unfold run.
  induction evs as [|ev evs IH] using rev_ind.
  - apply rendered_atRest, loadEffect_atRest.
  - rewrite foldl_app. simpl. by apply handle_atRest.
Qed.

(** The render after a hard reset stores the content again when the live
    value changed; the history key stays absent. *)
Lemma rendered_hardReset r :
  isLoaded (world r) = true →
  live r ≠ defaultText →
  let r' := rendered hardReset r in
  getItem "textbox-content" (world r') = Some defaultText
  ∧ getItem "textbox-history" (world r') = None.
Proof.
  destruct r as [s [t l fl h ls]]. unfold live. simpl. intros -> Ht.
  unfold rendered, saveEffect, getItem. simpl.
  rewrite bool_decide_eq_false_2 by (by intros [? _]).
  simpl. split.
  - apply lookup_insert_eq.
  - rewrite lookup_insert_ne by done. apply lookup_delete_eq.
Qed.

End EditorFacts.

(** ** Where the stack can fail *)

Lemma structuredClone_strings (l : list string) :
  structuredCloneUnknown (JSString <$> l) = Some (JSString <$> l).
Proof.
  unfold structuredCloneUnknown. apply mapM_Some.
  induction l as [|s l IH]; constructor; [reflexivity | exact IH].
Qed.

Lemma structuredClone_function (before after : list JSValue) :
  structuredCloneUnknown (before ++ JSFunction :: after) = None.
Proof.
  unfold structuredCloneUnknown. apply mapM_None.
  apply Exists_app. right. by constructor.
Qed.

(** C9 (as amended): undo(), redo() and clear() never fail.  undo() on an
    empty executed sequence and redo() on an empty reversed sequence return
    the stack and the state (so the live value) as they were, which shows
    in the availability flags alone; clear() returns [true] and leaves both
    sequences empty and the state as it was.  push() fails in one place of
    its own, the clone of its arguments, before anything is executed or
    recorded: it fails whenever an argument is a function, it never fails
    on string arguments, and where the clone succeeds it does what [push]
    does on the cloned arguments. *)
Theorem stack_operations_fail_only_in_clone {W : Type}
    (p f : list (UndoAction W)) (w : W)
    (doFn undoFn : list JSValue → W → W) (r : Runtime W) :
  undo (mkRuntime (mkUndoStack [] f) w) = mkRuntime (mkUndoStack [] f) w
  ∧ undoAvailable (mkUndoStack [] f) = false
  ∧ redo (mkRuntime (mkUndoStack p []) w) = mkRuntime (mkUndoStack p []) w
  ∧ redoAvailable (mkUndoStack p []) = false
  ∧ clear (mkRuntime (mkUndoStack p f) w)
    = (true, mkRuntime createUndoStack w)
  ∧ (∀ args,
       pushUnknown doFn undoFn args r
       = clonedArgs ← structuredCloneUnknown args;
         Some (push doFn undoFn clonedArgs r))
  ∧ (∀ strings : list string,
       pushUnknown doFn undoFn (JSString <$> strings) r
       = Some (push doFn undoFn (JSString <$> strings) r))
  ∧ (∀ before after,
       pushUnknown doFn undoFn (before ++ JSFunction :: after) r = None).
Proof.
  do 5 (split; [reflexivity|]).
  split; [|split].
  - intros args. unfold pushUnknown.
    by destruct (structuredCloneUnknown args).
  - intros strings. unfold pushUnknown.
    by rewrite structuredClone_strings.
  - intros before after. unfold pushUnknown.
    by rewrite structuredClone_function.
Qed.

(** ** The theorems at concrete inputs

    The codec is [plainParse] and [plainStringify]; a fresh browser has the
    empty storage. *)

Lemma undo_of_clear_keeps_empty_witness :
  let r := initialize plainParse ∅ in
  isUndoRedoOperation (world r) = false
  ∧ (let r' := handleUndo (clearContent plainStringify
                             (commit plainStringify "hello" r)) in
     live r' = "" ∧ log r' = [""; ""] ∧ canUndo r' = false
     ∧ canRedo r' = true).
Proof.
  intros r. split; [reflexivity|].
  apply (undo_of_clear_keeps_empty plainStringify "hello" r).
  reflexivity.
Defined.

Lemma undos_after_load_repeat_newer_witness :
  let storage := stored "abc" [""; "a"; "ab"; "abc"] in
  let blob := plainStringify [""; "a"; "ab"; "abc"] in
  storage !! "textbox-history" = Some blob
  ∧ blob ≠ ""
  ∧ plainParse blob = Some [""; "a"; "ab"; "abc"]
  ∧ (let r := initialize plainParse storage in
     live r = "abc"
     ∧ live (times 1 handleUndo r) = "abc"
     ∧ live (times 2 handleUndo r) = "ab"
     ∧ live (times 3 handleUndo r) = "a"
     ∧ times 4 handleUndo r = times 3 handleUndo r).
Proof.
  intros storage blob.
  assert (storage !! "textbox-history" = Some blob) as Hblob
    by (vm_compute; reflexivity).
  assert (blob ≠ "") as Hne by (vm_compute; discriminate).
  assert (plainParse blob = Some [""; "a"; "ab"; "abc"]) as Hparse
    by (vm_compute; reflexivity).
  repeat (split; [assumption|]).
  exact (undos_after_load_repeat_newer plainParse storage blob
           Hblob Hne Hparse).
Defined.

(** C3 (as stated, it fails): the log ["", "a", "ab"] with the stored
    content "a" is what two commits and one undo leave behind.  Replayed
    with manual pushes, as the claim has it, no forward procedure runs and
    the live value stays the stored content "a"; [initialize] runs them and
    ends on "ab". *)
Lemma replay_is_not_manual :
  ¬ (live (initialize plainParse (stored "a" [""; "a"; "ab"]))
     = live (initializeAsSpecified plainParse (stored "a" [""; "a"; "ab"]))).
Proof. vm_compute. discriminate. Qed.

(** C9 (as stated, it fails): a push that is handed a function among the
    arguments to clone fails, on any stack; here on the stack of a fresh
    editor, with the closures the editor uses and the text followed by a
    callback as arguments. *)
Lemma push_fails_on_a_function :
  pushUnknown
    (λ args, setText (match args with JSString s :: _ => s | _ => "" end))
    (λ args, setText (match args with JSString s :: _ => s | _ => "" end))
    [JSString "hello"; JSFunction]
    (initialize plainParse ∅)
  = None.
Proof. reflexivity. Qed.

Lemma initialize_replays_log_executing_witness :
  let storage := stored "a" [""; "a"; "ab"] in
  let blob := plainStringify [""; "a"; "ab"] in
  let history := [""; "a"; "ab"] in
  storage !! "textbox-history" = Some blob
  ∧ blob ≠ ""
  ∧ plainParse blob = Some history
  ∧ (let r := initialize plainParse storage in
     let N := length history in
     past (undoStackRef r) = map (replayed history) (seq 1 (N - 1))
     ∧ length (past (undoStackRef r)) = N - 1
     ∧ future (undoStackRef r) = []
     ∧ log r = history
     ∧ world r
       = setIsLoaded true
           (foldl (λ e a, doWithData a e)
              (setHistoryRef history
                 (setText (orElse (storage !! "textbox-content") "")
                    (world (mount storage))))
              (past (undoStackRef r)))
     ∧ (∀ i e, 1 ≤ i < N →
          text (doWithData (replayed history i) e) = at_ history i)).
Proof.
  intros storage blob history.
  assert (storage !! "textbox-history" = Some blob) as Hblob
    by (vm_compute; reflexivity).
  assert (blob ≠ "") as Hne by (vm_compute; discriminate).
  assert (plainParse blob = Some history) as Hparse
    by (vm_compute; reflexivity).
  repeat (split; [assumption|]).
  exact (initialize_replays_log_executing plainParse storage blob history
           Hblob Hne Hparse).
Defined.

Lemma initialize_live_is_last_entry_witness :
  let storage := stored "a" [""; "a"; "ab"] in
  let blob := plainStringify [""; "a"; "ab"] in
  storage !! "textbox-content" = Some "a"
  ∧ storage !! "textbox-history" = Some blob
  ∧ blob ≠ ""
  ∧ plainParse blob = Some ("" :: ["a"] ++ ["ab"])%list
  ∧ live (initialize plainParse storage) = "ab".
Proof.
  intros storage blob.
  assert (storage !! "textbox-history" = Some blob) as Hblob
    by (vm_compute; reflexivity).
  assert (blob ≠ "") as Hne by (vm_compute; discriminate).
  assert (plainParse blob = Some ("" :: ["a"] ++ ["ab"])%list) as Hparse
    by (vm_compute; reflexivity).
  split; [vm_compute; reflexivity|].
  repeat (split; [assumption|]).
  exact (initialize_live_is_last_entry plainParse storage blob "" ["a"] "ab"
           Hblob Hne Hparse).
Defined.

Lemma unparseable_log_falls_back_witness :
  let storage : gmap string string :=
    <["textbox-content" := "hello"]> (<["textbox-history" := "{oops"]> ∅) in
  storage !! "textbox-content" = Some "hello"
  ∧ storage !! "textbox-history" = Some "{oops"
  ∧ plainParse "{oops" = None
  ∧ (let r := initialize plainParse storage in
     live r = "hello" ∧ canUndo r = false ∧ log r = ["hello"]
     ∧ isLoaded (world r) = true).
Proof.
  intros storage.
  assert (storage !! "textbox-content" = Some "hello") as Hcontent
    by (vm_compute; reflexivity).
  assert (storage !! "textbox-history" = Some "{oops") as Hblob
    by (vm_compute; reflexivity).
  assert (plainParse "{oops" = None) as Hparse by reflexivity.
  repeat (split; [assumption|]).
  exact (unparseable_log_falls_back plainParse storage "{oops"
           Hcontent Hblob Hparse).
Defined.

Lemma redo_after_undo_restores_commit_witness :
  let r := initialize plainParse ∅ in
  isUndoRedoOperation (world r) = false
  ∧ (let r1 := commit plainStringify "hello" r in
     let r2 := handleRedo (handleUndo r1) in
     live r2 = "hello"
     ∧ length (past (undoStackRef r2)) = length (past (undoStackRef r1))
     ∧ length (future (undoStackRef r2))
       = length (future (undoStackRef r1))).
Proof.
  intros r. split; [reflexivity|].
  apply (redo_after_undo_restores_commit plainStringify "hello" r).
  reflexivity.
Defined.

Lemma undos_revert_commits_witness :
  let r := initialize plainParse (stored "seed" ["seed"]) in
  isUndoRedoOperation (world r) = false
  ∧ past (undoStackRef r) = []
  ∧ (let r' := commits plainStringify ["x"; "y"] r in
     live (times 2 handleUndo r') = live r
     ∧ (∀ k, k < 2 → canUndo (times k handleUndo r') = true)
     ∧ canUndo (times 2 handleUndo r') = false).
Proof.
  intros r.
  assert (isUndoRedoOperation (world r) = false) as Hrest
    by (vm_compute; reflexivity).
  assert (past (undoStackRef r) = []) as Hpast
    by (vm_compute; reflexivity).
  repeat (split; [assumption|]).
  exact (undos_revert_commits plainStringify "x" ["y"] r Hrest Hpast).
Defined.

Lemma push_discards_redo_witness :
  let r := initialize plainParse ∅ in
  isUndoRedoOperation (world r) = false
  ∧ (let r' := commit plainStringify "c"
                 (handleUndo (commit plainStringify "b"
                                (commit plainStringify "a" r))) in
     canRedo r' = false ∧ handleRedo r' = r').
Proof.
  intros r. split; [reflexivity|].
  apply (push_discards_redo plainStringify "a" "b" "c" r).
  reflexivity.
Defined.

(** * Further properties *)

(** ** Runs of undo and redo on the stack *)

Section StackRuns.

Context {W : Type}.
Implicit Types (r : Runtime W) (a : UndoAction W) (w : W).

(** [k] undos move the last [k] executed actions (all of them when there
    are fewer) to the front of the reversed sequence, in their order, and
    run their undo procedures, the most recent first. *)
Lemma times_undo_state k r :
  let n := length (past (undoStackRef r)) in
  times k undo r
  = {| undoStackRef :=
         {| past := take (n - k) (past (undoStackRef r));
            future := (drop (n - k) (past (undoStackRef r))
                       ++ future (undoStackRef r))%list |};
       world := foldr undoWithData (world r)
                  (drop (n - k) (past (undoStackRef r))) |}.
Proof.
  destruct r as [[p f] w]. simpl.
  induction k as [|k IH].
  - rewrite Nat.sub_0_r, take_ge, drop_all by done. reflexivity.
  - rewrite times_succ_last, IH. clear IH.
    destruct (length p - k) as [|m] eqn:Hm.
    + replace (length p - S k) with 0 by lia. reflexivity.
    + replace (length p - S k) with m by lia.
      destruct (lookup_lt_is_Some_2 p m) as [x Hx]; [lia|].
      rewrite (take_S_r _ _ _ Hx), (drop_S _ _ _ Hx).
      change (take m p ++ [x])%list with (array_push x (take m p)).
      rewrite undo_last. reflexivity.
Qed.

(** [k] redos move the first [k] reversed actions (all of them when there
    are fewer) to the end of the executed sequence, in their order, and run
    their forward procedures, the next to redo first. *)
Lemma times_redo_state k r :
  times k redo r
  = {| undoStackRef :=
         {| past := (past (undoStackRef r)
                     ++ take k (future (undoStackRef r)))%list;
            future := drop k (future (undoStackRef r)) |};
       world := foldl (λ w a, doWithData a w) (world r)
                  (take k (future (undoStackRef r))) |}.
Proof.
  destruct r as [[p f] w]. simpl.
  induction k as [|k IH].
  - simpl. rewrite app_nil_r. reflexivity.
  - rewrite times_succ_last, IH. clear IH.
    destruct (f !! k) as [x|] eqn:Hx.
    + rewrite (take_S_r _ _ _ Hx), (drop_S _ _ _ Hx), redo_first.
      unfold array_push. rewrite foldl_app, app_assoc. reflexivity.
    + apply lookup_ge_None in Hx.
      rewrite !take_ge, !drop_ge by lia. reflexivity.
Qed.

End StackRuns.

(** X1: undo and redo, in any number and any order, neither lose nor
    duplicate nor reorder an action: the executed sequence followed by the
    reversed one stays the same list. *)
Theorem undo_redo_keep_timeline {W : Type} (ops : list bool)
    (r : Runtime W) :
  timeline
    (undoStackRef
       (foldl (λ r (isUndo : bool), if isUndo then undo r else redo r)
          r ops))
  = timeline (undoStackRef r).
Proof.
  revert r. induction ops as [|op ops IH]; intros r; [reflexivity|].
  simpl. rewrite IH. clear IH. unfold timeline. destruct op.
  - change (undo r) with (times 1 undo r). rewrite times_undo_state.
    simpl. rewrite app_assoc, take_drop. reflexivity.
  - change (redo r) with (times 1 redo r). rewrite times_redo_state.
    simpl. rewrite <- app_assoc, take_drop. reflexivity.
Qed.

(** X2: [k] undos in a row move the last [k] executed actions (all of them
    when there are fewer) to the front of the reversed sequence, keeping
    their order, and run their undo procedures from the most recent one
    back; [k] redos in a row move the first [k] reversed actions (all when
    fewer) to the end of the executed sequence and run their forward
    procedures from the first one on. *)
Theorem undo_and_redo_runs {W : Type} (k : nat) (r : Runtime W) :
  let p := past (undoStackRef r) in
  let f := future (undoStackRef r) in
  times k undo r
  = {| undoStackRef :=
         {| past := take (length p - k) p;
            future := (drop (length p - k) p ++ f)%list |};
       world := foldr undoWithData (world r) (drop (length p - k) p) |}
  ∧ times k redo r
    = {| undoStackRef :=
           {| past := (p ++ take k f)%list; future := drop k f |};
         world := foldl (λ w a, doWithData a w) (world r) (take k f) |}.
Proof. split; [apply times_undo_state | apply times_redo_state]. Qed.

(** X3: when at least [k] actions are executed, [k] undos followed by [k]
    redos give back the stack as it was, both sequences; the state is the
    one reached by undoing the last [k] actions, most recent first, and
    doing them again in their order. *)
Theorem redos_after_undos_restore_stack {W : Type} (k : nat)
    (r : Runtime W) :
  (k ≤ length (past (undoStackRef r)))%nat →
  let p := past (undoStackRef r) in
  let recent := drop (length p - k) p in
  undoStackRef (times k redo (times k undo r)) = undoStackRef r
  ∧ world (times k redo (times k undo r))
    = foldl (λ w a, doWithData a w)
        (foldr undoWithData (world r) recent) recent.
Proof.
  intros Hk. cbv zeta.
  rewrite times_redo_state, times_undo_state. simpl.
  destruct r as [[p f] w]. simpl in *.
  rewrite take_app_length', drop_app_length'
    by (rewrite length_drop; lia).
  rewrite take_drop. done.
Qed.



(** ** Typing, undone and redone *)

Section Typing.

Variable JSON_stringify : list string → string.

Implicit Types (r : Runtime EditorState) (v c : string).
Implicit Types (cs : list string) (e : EditorState).










End Typing.

(** ** Sessions: loading, rendering, reloading *)

Section Sessions.

Variable JSON_parse : string → option (list string).
Variable JSON_stringify : list string → string.

Implicit Types (r : Runtime EditorState) (v : string).
Implicit Types (storage : gmap string string) (e : EditorState).

(** The render after a handler changes the stored content or nothing. *)
Lemma rendered_world (h : Runtime EditorState → Runtime EditorState) r :
  world (rendered h r) = world (h r)
  ∨ (isLoaded (world (h r)) = true
     ∧ world (rendered h r)
       = setItem "textbox-content" (text (world (h r))) (world (h r))).
Proof.
  unfold rendered, saveEffect. simpl.
  case_bool_decide; [by left|].
  destruct (isLoaded (world (h r))); [by right | by left].
Qed.

Lemma rendered_live (h : Runtime EditorState → Runtime EditorState) r :
  live (rendered h r) = live (h r).
Proof.
  unfold live. by destruct (rendered_world h r) as [-> | [_ ->]].
Qed.

Lemma rendered_log (h : Runtime EditorState → Runtime EditorState) r :
  log (rendered h r) = log (h r).
Proof.
  unfold log. by destruct (rendered_world h r) as [-> | [_ ->]].
Qed.

Lemma rendered_isLoaded (h : Runtime EditorState → Runtime EditorState) r :
  isLoaded (world (rendered h r)) = isLoaded (world (h r)).
Proof. by destruct (rendered_world h r) as [-> | [_ ->]]. Qed.

Lemma rendered_history (h : Runtime EditorState → Runtime EditorState) r :
  getItem "textbox-history" (world (rendered h r))
  = getItem "textbox-history" (world (h r)).
Proof.
  destruct (rendered_world h r) as [-> | [_ ->]]; [done|].
  unfold getItem. simpl. by rewrite lookup_insert_ne.
Qed.

(** Whatever is stored, [initialize] ends loaded and at rest, over the
    storage as it found it, with nothing to redo; the executed actions are
    replayed ones, and when there are some the live value is the entry the
    last of them read. *)
Lemma initialize_shape storage :
  ∃ history (l : list nat) txt hist,
    initialize JSON_parse storage
    = mkRuntime (mkUndoStack (map (replayed history) l) [])
        (mkEditorState txt true false hist storage)
    ∧ (∀ j, last l = Some j → txt = at_ history j).
Proof.
  destruct (storage !! "textbox-history") as [blob|] eqn:Hblob.
  - destruct (decide (blob = "")) as [->|Hne];
      [|destruct (JSON_parse blob) as [history|] eqn:Hparse].
    + exists [], [], (orElse (storage !! "textbox-content") ""),
        [orElse (storage !! "textbox-content") ""].
      split; [|done].
      unfold initialize, loadEffect, getItem. simpl. by rewrite Hblob.
    + rewrite (initialize_parsed _ _ _ _ Hblob Hne Hparse).
      rewrite replayRounds_spec. simpl.
      destruct (length history - 1) as [|count].
      * by exists history, [], (orElse (storage !! "textbox-content") ""),
          history.
      * rewrite replayed_world. simpl.
        exists history, (seq 1 (S count)), (at_ history (S count)), history.
        split; [done|]. intros j. rewrite seq_S, last_snoc. by intros [= <-].
    + rewrite initialize_fallback by (by rewrite Hblob).
      by exists [], [], (orElse (storage !! "textbox-content") ""),
        [orElse (storage !! "textbox-content") ""].
  - rewrite initialize_fallback by (by rewrite Hblob).
    by exists [], [], (orElse (storage !! "textbox-content") ""),
      [orElse (storage !! "textbox-content") ""].
Qed.

(** X5: when the history key is missing, holds the empty string, or holds
    a blob that does not parse, [initialize] leaves the stack empty and the
    storage as it is, takes the stored content as live value (the empty
    string when the content key is missing or empty) and seeds the log with
    that one value. *)
Theorem initialize_without_log storage :
  match storage !! "textbox-history" with
  | Some blob => blob = "" ∨ JSON_parse blob = None
  | None => True
  end →
  let content := orElse (storage !! "textbox-content") "" in
  initialize JSON_parse storage
  = {| undoStackRef := createUndoStack;
       world := {| text := content; isLoaded := true;
                   isUndoRedoOperation := false; historyRef := [content];
                   localStorage := storage |} |}.
Proof.
  intros Hlog content. subst content.
  destruct (storage !! "textbox-history") as [blob|] eqn:Hblob.
  - destruct Hlog as [-> | Hparse].
    + unfold initialize, loadEffect, getItem. simpl. by rewrite Hblob.
    + apply initialize_fallback. by rewrite Hblob.
  - apply initialize_fallback. by rewrite Hblob.
Qed.

(** X6: a stored log that parses to at most one entry gives no undo step:
    the stack stays empty, the live value is the stored content (not the
    entry), and the in-memory log is the stored one as it is, the empty log
    included. *)
Theorem initialize_short_log storage blob history :
  storage !! "textbox-history" = Some blob →
  blob ≠ "" →
  JSON_parse blob = Some history →
  (length history ≤ 1)%nat →
  initialize JSON_parse storage
  = {| undoStackRef := createUndoStack;
       world := {| text := orElse (storage !! "textbox-content") "";
                   isLoaded := true; isUndoRedoOperation := false;
                   historyRef := history; localStorage := storage |} |}.
Proof.
  intros Hblob Hne Hparse Hlen.
  rewrite (initialize_parsed _ _ _ _ Hblob Hne Hparse).
  replace (length history - 1) with 0 by lia. reflexivity.
Qed.

(** *** What holds in every state a session reaches *)

(** X7: when the stored log, if there is one and it is not the empty
    string, is a blob that [JSON.parse] rejects or reads as an array of
    strings, then in every state that the session reaches from that
    storage, by any requests, a commit is recorded: the live value becomes
    the new value, the log grows by it and is stored, one action leading
    from the old value to the new one is appended to the executed sequence,
    and nothing is left to redo.  The flag that mutes recording is never
    found raised.  (A stored log that parses to a value of another kind is
    outside the editor as modelled.) *)
Theorem commit_always_recorded (parse : string → ParseResult)
    storage (evs : list Event) v :
  (∀ blob, storage !! "textbox-history" = Some blob → blob ≠ "" →
           parse blob ≠ OtherValue) →
  let r := run (stringArrays parse) JSON_stringify storage evs in
  let r' := handle JSON_stringify (Commit v) r in
  live r' = v
  ∧ log r' = (log r ++ [v])%list
  ∧ getItem "textbox-history" (world r')
    = Some (JSON_stringify (log r ++ [v])%list)
  ∧ past (undoStackRef r')
    = (past (undoStackRef r) ++ [typed (live r) v])%list
  ∧ future (undoStackRef r') = [].
Proof.
  intros _ r r'. subst r'.
  destruct (run_atRest (stringArrays parse) JSON_stringify storage evs)
    as (Hrest & _).
  fold r in Hrest. unfold handle.
  rewrite rendered_live, rendered_log, rendered_history, rendered_stack.
  rewrite commit_at_rest by done. unfold getItem. simpl.
  by rewrite lookup_insert_eq.
Qed.

Lemma typed_tame old new : tame (typed old new).
Proof. intros e. done. Qed.

Lemma replayed_tame (history : list string) (l : list nat) :
  Forall tame (map (replayed history) l).
Proof.
  apply Forall_forall. intros a Ha.
  apply list_elem_of_fmap in Ha as (i & -> & _).
  intros e. done.
Qed.

Lemma clearAction_tame oldText : tame (clearAction JSON_stringify oldText).
Proof.
  intros e. split; [done|]. split; [done|].
  unfold getItem. simpl. by rewrite lookup_insert_ne.
Qed.

(** The render stores the live value unless the handler left the live value
    and [isLoaded] as they were. *)
Lemma rendered_contentSaved
    (h : Runtime EditorState → Runtime EditorState) r :
  isLoaded (world (h r)) = true →
  (text (world r) = text (world (h r)) →
   isLoaded (world r) = isLoaded (world (h r)) →
   contentSaved (h r)) →
  contentSaved (rendered h r).
Proof.
  intros Hloaded Hsame.
  unfold rendered, saveEffect, contentSaved, live, getItem. simpl.
  case_bool_decide as Hdeps.
  - destruct Hdeps as [Ht Hl]. by apply Hsame.
  - rewrite Hloaded. simpl. left. by rewrite lookup_insert_eq.
Qed.

Lemma mounted_settled storage :
  settled (rendered (loadEffect JSON_parse) (mount storage)).
Proof.
  destruct (initialize_shape storage)
    as (history & l & txt & hist & Hinit & _).
  unfold settled.
  rewrite rendered_isLoaded, rendered_stack.
  change (loadEffect JSON_parse (mount storage))
    with (initialize JSON_parse storage).
  split; [by rewrite Hinit|]. split.
  - apply rendered_contentSaved.
    + change (loadEffect JSON_parse (mount storage))
        with (initialize JSON_parse storage). by rewrite Hinit.
    + change (loadEffect JSON_parse (mount storage))
        with (initialize JSON_parse storage). rewrite Hinit. done.
  - rewrite Hinit. simpl. split; [apply replayed_tame | constructor].
Qed.

Lemma handle_settled (ev : Event) r :
  settled r → settled (handle JSON_stringify ev r).
Proof.
  intros (Hloaded & Hsaved & Hp & Hf). unfold handle, settled.
  rewrite rendered_isLoaded, rendered_stack.
  destruct ev as [v| | | |].
  - (* a commit touches the text, the log and the history key *)
    assert (isLoaded (world (commit JSON_stringify v r)) = true
            ∧ getItem "textbox-content" (world (commit JSON_stringify v r))
              = getItem "textbox-content" (world r)
            ∧ Forall tame (past (undoStackRef (commit JSON_stringify v r)))
            ∧ Forall tame
                (future (undoStackRef (commit JSON_stringify v r))))
      as (Hl & Hc & Hp' & Hf').
    { destruct r as [[p f] [t l fl h ls]]. simpl in *. subst l.
      destruct fl; simpl.
      - done.
      - unfold getItem. simpl. rewrite lookup_insert_ne by done.
        split; [done|]. split; [done|]. split; [|constructor].
        unfold array_push. rewrite Forall_app, Forall_singleton.
        split; [done | apply typed_tame]. }
    split; [done|]. split; [|done].
    apply rendered_contentSaved; [done|]. intros Ht _.
    unfold contentSaved, live in *. rewrite Hc, <- Ht. exact Hsaved.
  - (* undo runs a tame action, if any *)
    destruct r as [[p f] w]. simpl in *. unfold handleUndo.
    destruct (list_rev_case p) as [-> | (p' & a & ->)].
    + rewrite undo_nothing. simpl. split; [done|]. split; [|done].
      apply rendered_contentSaved; by rewrite ?undo_nothing.
    + change (p' ++ [a])%list with (array_push a p') in *.
      unfold array_push in Hp.
      rewrite Forall_app, Forall_singleton in Hp. destruct Hp as [Hp' Ha].
      destruct (Ha w) as (_ & Hl & Hc).
      rewrite undo_last. simpl.
      split; [congruence|]. split; [|split; [done | by constructor]].
      apply rendered_contentSaved; rewrite undo_last; simpl;
        [congruence|].
      intros Ht _. unfold contentSaved, live in *. simpl in *.
      rewrite Hc, <- Ht. exact Hsaved.
  - (* redo runs a tame action, if any *)
    destruct r as [[p f] w]. simpl in *. unfold handleRedo.
    destruct f as [|a f'].
    + rewrite redo_nothing. simpl. split; [done|]. split; [|done].
      apply rendered_contentSaved; by rewrite ?redo_nothing.
    + rewrite Forall_cons in Hf. destruct Hf as [Ha Hf'].
      destruct (Ha w) as ((Hl & Hc) & _).
      rewrite redo_first. simpl.
      split; [congruence|]. split.
      * apply rendered_contentSaved; rewrite redo_first; simpl;
          [congruence|].
        intros Ht _. unfold contentSaved, live in *. simpl in *.
        rewrite Hc, <- Ht. exact Hsaved.
      * split; [|done]. unfold array_push.
        rewrite Forall_app, Forall_singleton. done.
  - (* a clear touches the text, the log and the history key *)
    destruct r as [[p f] [t l fl h ls]]. simpl in *. subst l.
    split; [done|]. split.
    + apply rendered_contentSaved; [done|]. simpl. intros -> _.
      unfold contentSaved, live, getItem in *. simpl in *.
      by rewrite lookup_insert_ne.
    + simpl. split; [|constructor].
      apply Forall_singleton, (clearAction_tame t).
  - (* a hard reset removes the content and sets the default text *)
    destruct r as [[p f] [t l fl h ls]]. simpl in *. subst l.
    split; [done|]. split; [|split; constructor].
    apply rendered_contentSaved; [done|]. simpl. intros _ _.
    right. unfold getItem, live. simpl.
    rewrite lookup_delete_ne by done. by rewrite lookup_delete_eq.
Qed.

Lemma run_settled storage (evs : list Event) :
  settled (run JSON_parse JSON_stringify storage evs).
Proof.
  unfold run.
  induction evs as [|ev evs IH] using rev_ind.
  - apply mounted_settled.
  - rewrite foldl_app. simpl. by apply handle_settled.
Qed.

(** X8: in every state that a session reaches the component is loaded and
    the stored content is the live value, with one exception: after a hard
    reset on a live value that already was the default text the content key
    stays removed (until the live value next changes). *)
Theorem content_always_saved storage (evs : list Event) :
  let r := run JSON_parse JSON_stringify storage evs in
  isLoaded (world r) = true
  ∧ (getItem "textbox-content" (world r) = Some (live r)
     ∨ (getItem "textbox-content" (world r) = None
        ∧ live r = defaultText)).
Proof.
  intros r. destruct (run_settled storage evs) as (Hl & Hs & _).
  split; [exact Hl | exact Hs].
Qed.

End Sessions.

(** ** Reloading the page *)

Section Reloading.

Variable JSON_parse : string → option (list string).
Variable JSON_stringify : list string → string.

Implicit Types (r : Runtime EditorState) (v : string).
Implicit Types (storage : gmap string string) (e : EditorState).

(** Loading a stored log of two entries or more, written by the codec and
    read back by it. *)
Lemma initialize_stored storage h0 (hs : list string) v :
  let history := (h0 :: hs ++ [v])%list in
  storage !! "textbox-history" = Some (JSON_stringify history) →
  JSON_stringify history ≠ "" →
  JSON_parse (JSON_stringify history) = Some history →
  let r := initialize JSON_parse storage in
  log r = history ∧ live r = v
  ∧ length (past (undoStackRef r)) = length history - 1
  ∧ future (undoStackRef r) = [].
Proof.
  intros history Hblob Hne Hparse r. subst r.
  rewrite (initialize_parsed _ _ _ _ Hblob Hne Hparse).
  rewrite replayRounds_spec. unfold live, log. simpl.
  rewrite length_map, length_seq.
  assert (length history - 1 = S (length hs)) as Hlen.
  { unfold history. simpl. rewrite length_app. simpl. lia. }
  simpl in Hlen. rewrite Hlen, replayed_world. simpl.
  repeat split.
  rewrite <- Hlen.
  apply (at_last history).
  unfold history. rewrite app_comm_cons. apply last_snoc.
Qed.

(** X9: a commit survives a reload.  When the log of a component at rest
    is not empty and the codec reads back the log it writes, then after a
    commit, its render and a reload of the page, the log and the live value
    are those the commit left, every entry but the first has its undo step
    again, and nothing is left to redo. *)
Theorem reload_restores_commit v r :
  isUndoRedoOperation (world r) = false →
  log r ≠ [] →
  JSON_stringify (log r ++ [v])%list ≠ "" →
  JSON_parse (JSON_stringify (log r ++ [v])%list)
  = Some (log r ++ [v])%list →
  let r1 := handle JSON_stringify (Commit v) r in
  let r2 := remount JSON_parse r1 in
  log r2 = log r1 ∧ live r2 = live r1
  ∧ length (past (undoStackRef r2)) = length (log r1) - 1
  ∧ future (undoStackRef r2) = [].
Proof.
  intros Hrest Hlog Hne Hparse r1 r2.
  assert (log r1 = (log r ++ [v])%list ∧ live r1 = v
          ∧ getItem "textbox-history" (world r1)
            = Some (JSON_stringify (log r ++ [v])%list))
    as (Hlog1 & Hlive1 & Hstored).
  { subst r1. unfold handle.
    rewrite rendered_log, rendered_live, rendered_history.
    rewrite commit_at_rest by done. unfold getItem. simpl.
    by rewrite lookup_insert_eq. }
  rewrite Hlog1, Hlive1. subst r2. unfold remount.
  destruct (log r) as [|h0 hs] eqn:Hh; [done|].
  apply (initialize_stored _ h0 hs v); done.
Qed.

(** X10: an undo does not survive a reload.  Under the same conditions,
    after a commit, an undo (each with its render) and a reload, the live
    value is the committed value again, not the one the undo brought back,
    and the log still ends with the committed value. *)
Theorem reload_forgets_undo v r :
  isUndoRedoOperation (world r) = false →
  log r ≠ [] →
  JSON_stringify (log r ++ [v])%list ≠ "" →
  JSON_parse (JSON_stringify (log r ++ [v])%list)
  = Some (log r ++ [v])%list →
  let r1 := handle JSON_stringify Undo
              (handle JSON_stringify (Commit v) r) in
  let r2 := remount JSON_parse r1 in
  live r1 = live r
  ∧ live r2 = v
  ∧ log r2 = (log r ++ [v])%list
  ∧ canUndo r2 = true ∧ canRedo r2 = false.
Proof.
  intros Hrest Hlog Hne Hparse r1 r2.
  assert (live r1 = live r
          ∧ getItem "textbox-history" (world r1)
            = Some (JSON_stringify (log r ++ [v])%list))
    as (Hlive1 & Hstored).
  { subst r1.
    pose proof (rendered_stack (commit JSON_stringify v) r) as Hstack.
    pose proof (rendered_history (commit JSON_stringify v) r) as Hhist.
    change (rendered (commit JSON_stringify v) r)
      with (handle JSON_stringify (Commit v) r) in *.
    rewrite commit_at_rest in Hstack, Hhist by done.
    destruct (handle JSON_stringify (Commit v) r) as [[p f] w].
    unfold handle. rewrite rendered_live, rendered_history.
    simpl in *. injection Hstack as -> ->.
    unfold handleUndo. rewrite undo_last. unfold live, getItem in *.
    simpl in *. split; [reflexivity|].
    rewrite Hhist. by rewrite lookup_insert_eq. }
  split; [exact Hlive1|]. subst r2. unfold remount.
  destruct (log r) as [|h0 hs] eqn:Hh; [done|].
  destruct (initialize_stored (localStorage (world r1)) h0 hs v)
    as (Hl & Hv & Hp & Hf); [done..|].
  split; [exact Hv|]. split; [exact Hl|]. split.
  - apply undoAvailable_length. rewrite Hp. simpl.
    rewrite length_app. simpl. lia.
  - by apply redoAvailable_empty.
Qed.

(** X11: a hard reset survives a reload only if it changed the live value.
    On a loaded component, after a hard reset, its render and a reload, the
    stack is empty; the live value and the one entry of the log are the
    default text when the live value was something else before the reset,
    and the empty string when it already was the default text, for then no
    render stores the content again. *)
Theorem reload_after_hardReset r :
  isLoaded (world r) = true →
  let r2 := remount JSON_parse (handle JSON_stringify HardReset r) in
  undoStackRef r2 = createUndoStack
  ∧ (live r ≠ defaultText →
     live r2 = defaultText ∧ log r2 = [defaultText])
  ∧ (live r = defaultText → live r2 = "" ∧ log r2 = [""]).
Proof.
  intros Hloaded. unfold remount.
  set (st := localStorage (world (handle JSON_stringify HardReset r))).
  assert (st !! "textbox-history" = None
          ∧ (live r ≠ defaultText →
             st !! "textbox-content" = Some defaultText)
          ∧ (live r = defaultText → st !! "textbox-content" = None))
    as (Hhist & Hchanged & Hsame).
  { subst st. destruct r as [s [t l fl h ls]].
    unfold live, handle, rendered, saveEffect. simpl in *. subst l.
    case_bool_decide as Hdeps; simpl.
    - destruct Hdeps as [-> _].
      rewrite lookup_delete_eq, lookup_delete_ne, lookup_delete_eq by done.
      done.
    - rewrite lookup_insert_ne, lookup_delete_eq, lookup_insert_eq by done.
      split; [done|]. split; [done|]. intros ->. by destruct Hdeps. }
  rewrite initialize_fallback by (by rewrite Hhist).
  unfold live at 2 4, log. simpl. split; [done|]. split.
  - intros Ht. by rewrite (Hchanged Ht).
  - intros Ht. by rewrite (Hsame Ht).
Qed.

End Reloading.

(** ** Clearing *)

Section Clearing.

Variable JSON_stringify : list string → string.

Implicit Types (r : Runtime EditorState) (e : EditorState).

(** X12: [clearContent] forgets what was there.  Its result is the one it
    has on a component with an empty live value, an empty log and an empty
    stack over the same storage: neither the live value, nor the log, nor
    any recorded action of before can be read off it, and the undo
    procedure of the one action it records sets the live value to the
    empty string whatever the state. *)
Theorem clearContent_forgets r :
  clearContent JSON_stringify r
  = clearContent JSON_stringify
      {| undoStackRef := createUndoStack;
         world := {| text := ""; isLoaded := isLoaded (world r);
                     isUndoRedoOperation := false; historyRef := [];
                     localStorage := localStorage (world r) |} |}
  ∧ ∀ a e, a ∈ past (undoStackRef (clearContent JSON_stringify r)) →
           text (undoWithData a e) = "".
Proof.
  destruct r as [s [t l fl h ls]]. split; [reflexivity|].
  intros a e Ha. simpl in Ha. apply list_elem_of_singleton in Ha.
  by subst a.
Qed.

(** One undo and redo of the clear action: the log grows by an empty
    entry. *)
Lemma clear_cycle oldText (b : bool) (l : list string)
    (ls : gmap string string) :
  (handleUndo >> handleRedo)
    {| undoStackRef :=
         {| past := [clearAction JSON_stringify oldText]; future := [] |};
       world := {| text := ""; isLoaded := b; isUndoRedoOperation := false;
                   historyRef := l; localStorage := ls |} |}
  = {| undoStackRef :=
         {| past := [clearAction JSON_stringify oldText]; future := [] |};
       world := {| text := ""; isLoaded := b; isUndoRedoOperation := false;
                   historyRef := (l ++ [""])%list;
                   localStorage :=
                     <["textbox-history" :=
                         JSON_stringify (l ++ [""])%list]> ls |} |}.
Proof. reflexivity. Qed.

(** X13: undoing and redoing a clear is not neutral for the log.  After
    [clearContent] and [k] rounds of undo then redo, the live value is
    still empty and the clear is still the one step to undo, but the log,
    in memory and in the storage, holds [k + 1] empty entries. *)
Theorem clear_cycles_grow_log (k : nat) r :
  let r' := times k (handleUndo >> handleRedo)
              (clearContent JSON_stringify r) in
  live r' = ""
  ∧ log r' = replicate (S k) ""
  ∧ getItem "textbox-history" (world r')
    = Some (JSON_stringify (replicate (S k) ""))
  ∧ length (past (undoStackRef r')) = 1
  ∧ future (undoStackRef r') = [].
Proof.
  intros r'.
  assert (∃ ls,
            r' = {| undoStackRef :=
                      {| past := [clearAction JSON_stringify
                                    (text (world r))];
                         future := [] |};
                    world :=
                      {| text := ""; isLoaded := isLoaded (world r);
                         isUndoRedoOperation := false;
                         historyRef := replicate (S k) "";
                         localStorage := ls |} |}
            ∧ ls !! "textbox-history"
              = Some (JSON_stringify (replicate (S k) "")))
    as (ls & -> & Hls).
  { subst r'. induction k as [|k (ls & IH & _)].
    - destruct r as [s [t l fl h ls]]. eexists. split; [reflexivity|].
      apply lookup_insert_eq.
    - rewrite times_succ_last, IH, clear_cycle.
      rewrite <- replicate_S_end. eexists. split; [reflexivity|].
      apply lookup_insert_eq. }
  done.
Qed.

End Clearing.

(** ** Undo and redo after loading *)

Section Loaded.

Variable JSON_parse : string → option (list string).

Implicit Types (e : EditorState) (history : list string).





End Loaded.

(** ** The keyboard shortcuts *)

(** X15: a key event without Ctrl and without Meta, or with a key other
    than lower-case [z] and [y] (the upper-case [Z] included), is ignored:
    the component is left as it is and the default action of the event is
    not prevented. *)
Theorem handleKeyDown_ignores (e : KeyboardEvent)
    (r : Runtime EditorState) :
  ctrlKey e || metaKey e = false ∨ (key e ≠ "z" ∧ key e ≠ "y") →
  handleKeyDown e r = (e, r).
Proof.
  unfold handleKeyDown. intros [-> | [Hz Hy]]; [reflexivity|].
  destruct (String.eqb_spec (key e) "z"); [done|].
  destruct (String.eqb_spec (key e) "y"); [done|].
  simpl. by destruct (ctrlKey e || metaKey e).
Qed.

(** X16: with Ctrl or Meta, the keys [z] and [y] prevent the default
    action of the event even when there is nothing to undo and nothing to
    redo, and the component is then left as it is. *)
Theorem handleKeyDown_on_empty_stack (e : KeyboardEvent)
    (r : Runtime EditorState) :
  ctrlKey e || metaKey e = true →
  key e = "z" ∨ key e = "y" →
  undoStackRef r = createUndoStack →
  handleKeyDown e r = (preventDefault e, r).
Proof.
  destruct r as [s w]. simpl. intros Hmod Hkey ->.
  unfold handleKeyDown. rewrite Hmod.
  destruct Hkey as [-> | ->]; simpl; by destruct (shiftKey e).
Qed.

(** ** The further properties at concrete inputs *)

Lemma redos_after_undos_restore_stack_witness :
  let r := commits plainStringify ["a"; "b"] (initialize plainParse ∅) in
  (1 ≤ length (past (undoStackRef r)))%nat
  ∧ (let p := past (undoStackRef r) in
     let recent := drop (length p - 1) p in
     undoStackRef (times 1 redo (times 1 undo r)) = undoStackRef r
     ∧ world (times 1 redo (times 1 undo r))
       = foldl (λ w a, doWithData a w)
           (foldr undoWithData (world r) recent) recent).
Proof.
  intros r.
  assert (1 ≤ length (past (undoStackRef r)))%nat as Hk
    by (vm_compute; lia).
  split; [exact Hk|].
  exact (redos_after_undos_restore_stack 1 r Hk).
Defined.

Lemma initialize_without_log_witness :
  let storage : gmap string string := <["textbox-content" := "draft"]> ∅ in
  match storage !! "textbox-history" with
  | Some blob => blob = "" ∨ plainParse blob = None
  | None => True
  end
  ∧ initialize plainParse storage
    = {| undoStackRef := createUndoStack;
         world := {| text := orElse (storage !! "textbox-content") "";
                     isLoaded := true; isUndoRedoOperation := false;
                     historyRef :=
                       [orElse (storage !! "textbox-content") ""];
                     localStorage := storage |} |}.
Proof.
  intros storage.
  assert (match storage !! "textbox-history" with
          | Some blob => blob = "" ∨ plainParse blob = None
          | None => True
          end) as Hlog by (vm_compute; exact I).
  split; [exact Hlog|].
  exact (initialize_without_log plainParse storage Hlog).
Defined.

Lemma initialize_short_log_witness :
  let storage := stored "draft" ["only"] in
  let blob := plainStringify ["only"] in
  storage !! "textbox-history" = Some blob
  ∧ blob ≠ ""
  ∧ plainParse blob = Some ["only"]
  ∧ (length ["only"] ≤ 1)%nat
  ∧ initialize plainParse storage
    = {| undoStackRef := createUndoStack;
         world := {| text := orElse (storage !! "textbox-content") "";
                     isLoaded := true; isUndoRedoOperation := false;
                     historyRef := ["only"]; localStorage := storage |} |}.
Proof.
  intros storage blob.
  assert (storage !! "textbox-history" = Some blob) as Hblob
    by (vm_compute; reflexivity).
  assert (blob ≠ "") as Hne by (vm_compute; discriminate).
  assert (plainParse blob = Some ["only"]) as Hparse
    by (vm_compute; reflexivity).
  assert (length ["only"] ≤ 1)%nat as Hlen by (simpl; lia).
  repeat (split; [assumption|]).
  exact (initialize_short_log plainParse storage blob ["only"]
           Hblob Hne Hparse Hlen).
Defined.

Lemma reload_restores_commit_witness :
  let r := initialize plainParse ∅ in
  isUndoRedoOperation (world r) = false
  ∧ log r ≠ []
  ∧ plainStringify (log r ++ ["a"])%list ≠ ""
  ∧ plainParse (plainStringify (log r ++ ["a"])%list)
    = Some (log r ++ ["a"])%list
  ∧ (let r1 := handle plainStringify (Commit "a") r in
     let r2 := remount plainParse r1 in
     log r2 = log r1 ∧ live r2 = live r1
     ∧ length (past (undoStackRef r2)) = length (log r1) - 1
     ∧ future (undoStackRef r2) = []).
Proof.
  intros r.
  assert (isUndoRedoOperation (world r) = false) as Hrest by reflexivity.
  assert (log r ≠ []) as Hlog by (vm_compute; discriminate).
  assert (plainStringify (log r ++ ["a"])%list ≠ "") as Hne
    by (vm_compute; discriminate).
  assert (plainParse (plainStringify (log r ++ ["a"])%list)
          = Some (log r ++ ["a"])%list) as Hparse
    by (vm_compute; reflexivity).
  repeat (split; [assumption|]).
  exact (reload_restores_commit plainParse plainStringify "a" r
           Hrest Hlog Hne Hparse).
Defined.

Lemma reload_forgets_undo_witness :
  let r := initialize plainParse ∅ in
  isUndoRedoOperation (world r) = false
  ∧ log r ≠ []
  ∧ plainStringify (log r ++ ["a"])%list ≠ ""
  ∧ plainParse (plainStringify (log r ++ ["a"])%list)
    = Some (log r ++ ["a"])%list
  ∧ (let r1 := handle plainStringify Undo
                 (handle plainStringify (Commit "a") r) in
     let r2 := remount plainParse r1 in
     live r1 = live r
     ∧ live r2 = "a"
     ∧ log r2 = (log r ++ ["a"])%list
     ∧ canUndo r2 = true ∧ canRedo r2 = false).
Proof.
  intros r.
  assert (isUndoRedoOperation (world r) = false) as Hrest by reflexivity.
  assert (log r ≠ []) as Hlog by (vm_compute; discriminate).
  assert (plainStringify (log r ++ ["a"])%list ≠ "") as Hne
    by (vm_compute; discriminate).
  assert (plainParse (plainStringify (log r ++ ["a"])%list)
          = Some (log r ++ ["a"])%list) as Hparse
    by (vm_compute; reflexivity).
  repeat (split; [assumption|]).
  exact (reload_forgets_undo plainParse plainStringify "a" r
           Hrest Hlog Hne Hparse).
Defined.

Lemma reload_after_hardReset_witness :
  let r := handle plainStringify (Commit "a") (initialize plainParse ∅) in
  isLoaded (world r) = true
  ∧ (let r2 := remount plainParse (handle plainStringify HardReset r) in
     undoStackRef r2 = createUndoStack
     ∧ (live r ≠ defaultText →
        live r2 = defaultText ∧ log r2 = [defaultText])
     ∧ (live r = defaultText → live r2 = "" ∧ log r2 = [""])).
Proof.
  intros r.
  assert (isLoaded (world r) = true) as Hloaded
    by (vm_compute; reflexivity).
  split; [exact Hloaded|].
  exact (reload_after_hardReset plainParse plainStringify r Hloaded).
Defined.

Lemma handleKeyDown_ignores_witness :
  let e := {| ctrlKey := true; metaKey := false; shiftKey := true;
              key := "Z"; defaultPrevented := false |} in
  let r := commits plainStringify ["a"] (initialize plainParse ∅) in
  (ctrlKey e || metaKey e = false ∨ (key e ≠ "z" ∧ key e ≠ "y"))
  ∧ handleKeyDown e r = (e, r).
Proof.
  intros e r.
  assert (ctrlKey e || metaKey e = false ∨ (key e ≠ "z" ∧ key e ≠ "y"))
    as Hignored by (right; split; discriminate).
  split; [exact Hignored|].
  exact (handleKeyDown_ignores e r Hignored).
Defined.

Lemma handleKeyDown_on_empty_stack_witness :
  let e := {| ctrlKey := false; metaKey := true; shiftKey := false;
              key := "z"; defaultPrevented := false |} in
  let r := initialize plainParse ∅ in
  ctrlKey e || metaKey e = true
  ∧ (key e = "z" ∨ key e = "y")
  ∧ undoStackRef r = createUndoStack
  ∧ handleKeyDown e r = (preventDefault e, r).
Proof.
  intros e r.
  assert (ctrlKey e || metaKey e = true) as Hmod by reflexivity.
  assert (key e = "z" ∨ key e = "y") as Hkey by (left; reflexivity).
  assert (undoStackRef r = createUndoStack) as Hstack by reflexivity.
  repeat (split; [assumption|]).
  exact (handleKeyDown_on_empty_stack e r Hmod Hkey Hstack).
Defined.

Lemma commit_always_recorded_witness :
  let storage := stored "ab" [""; "a"; "ab"] in
  let evs := [Undo; Commit "ac"; ClearContent; Undo] in
  (∀ blob, storage !! "textbox-history" = Some blob → blob ≠ "" →
           plainParseResult blob ≠ OtherValue)
  ∧ (let r := run (stringArrays plainParseResult) plainStringify
                storage evs in
     let r' := handle plainStringify (Commit "d") r in
     live r' = "d"
     ∧ log r' = (log r ++ ["d"])%list
     ∧ getItem "textbox-history" (world r')
       = Some (plainStringify (log r ++ ["d"])%list)
     ∧ past (undoStackRef r')
       = (past (undoStackRef r) ++ [typed (live r) "d"])%list
     ∧ future (undoStackRef r') = []).
Proof.
  intros storage evs.
  assert (∀ blob, storage !! "textbox-history" = Some blob → blob ≠ "" →
                  plainParseResult blob ≠ OtherValue) as Hstored.
  { intros blob Hblob _. vm_compute in Hblob. injection Hblob as <-.
    vm_compute. discriminate. }
  split; [exact Hstored|].
  exact (commit_always_recorded plainStringify plainParseResult
           storage evs "d" Hstored).
Defined.

(** ** Typing, undone and redone, with the renders *)

Section RenderedTyping.

Variable JSON_parse : string → option (list string).
Variable JSON_stringify : list string → string.

Implicit Types (r : Runtime EditorState) (e : EditorState).
Implicit Types (v c : string) (cs : list string).














End RenderedTyping.
